(** * Turn orchestration of the interview agent: [src/worker/chat.ts]

    A shallow embedding of the [ChatHandler] class.  JavaScript values are
    modelled by plain data ([JsValue]), exceptions and rejected promises by
    the [Outcome] monad, the streamed completion by the list of chunks it
    yields followed by an optional fault, and the collaborators the class
    imports (the completion client, the tool registry, [JSON.parse], the
    clock) by the variables of one section. *)

From stdpp Require Import base option list strings pretty.
From Stdlib Require Import Ascii ZArith Lia.

(** ** Text *)

(** The double quote and the line feed, which a string literal of this file
    never holds directly. *)
Definition dq : string := String "034"%char EmptyString.
Definition nl : string := String "010"%char EmptyString.

(** [q s] is [s] between double quotes. *)
Definition q (s : string) : string := dq +:+ s +:+ dq.

(** The lines of a template literal, joined by line feeds. *)
Definition unlines (ls : list string) : string := String.concat nl ls.

(** JavaScript truthiness of a string: every string but the empty one. *)
Definition truthy (s : string) : bool :=
  match s with
  | EmptyString => false
  | String _ _ => true
  end.

(** [o || d] for an optional string [o] ([undefined] and [null] are [None])
    and a string default [d]. *)
Definition or_else (o : option string) (d : string) : string :=
  match o with
  | Some s => if truthy s then s else d
  | None => d
  end.

(** ** Values, exceptions and outcomes *)

#[local] Set Warnings "-register-all".

(** Plain JavaScript data.  Numbers are the integers (a safe integer prints
    as its decimal digits); an object is the list of its own properties in
    enumeration order. *)
Inductive JsValue : Type :=
  | JUndefined
  | JNull
  | JBool (b : bool)
  | JNum (n : Z)
  | JStr (s : string)
  | JArr (items : list JsValue)
  | JObj (props : list (string * JsValue)).

(** What a [throw] carries: an [Error] instance with its message, or any
    other value. *)
Inductive Thrown : Type :=
  | ThrownError (message : string)
  | ThrownValue (v : JsValue).

(** The result of a call or of an awaited promise. *)
Inductive Outcome (A : Type) : Type :=
  | Returned (a : A)
  | Threw (e : Thrown).
Arguments Returned {A} a.
Arguments Threw {A} e.

#[global] Instance Outcome_ret : MRet Outcome := fun A a => Returned a.
#[global] Instance Outcome_bind : MBind Outcome := fun A B f m =>
  match m with
  | Returned a => f a
  | Threw e => Threw e
  end.

(** [try { body } catch (error) { handler }]. *)
Definition try_catch {A} (body : Outcome A) (handler : Thrown -> Outcome A) : Outcome A :=
  match body with
  | Returned a => Returned a
  | Threw e => handler e
  end.

(** [Promise.all]: the results in the order of the promises, or the first
    rejection. *)
Fixpoint Promise_all {A} (ps : list (Outcome A)) : Outcome (list A) :=
  match ps with
  | [] => Returned []
  | p :: ps' => a ← p; l ← Promise_all ps'; Returned (a :: l)
  end.

(** ** Messages *)

Inductive Role : Type := system | user | assistant | tool.

(** Modelled from the spec: the [Message] type of [./types], which is not
    among the sources.  The spec gives it a role and a content that is text
    or null; [m_rest] stands for whatever further fields a stored message
    has (the handler never reads them). *)
Record Message (X : Type) : Type := mkMessage {
  m_role : Role;
  m_content : option string;
  m_rest : X
}.
Arguments mkMessage {X}.
Arguments m_role {X}.
Arguments m_content {X}.
Arguments m_rest {X}.

(** A tool call of a completion message
    ([ChatCompletionMessageFunctionToolCall]); its [type] is always
    ['function']. *)
Record FunctionCall : Type := mkFunctionCall {
  fn_name : string;
  fn_arguments : string
}.
Record FunctionToolCall : Type := mkFunctionToolCall {
  tc_id : string;
  tc_function : FunctionCall
}.

(** A message of a completion request.  [None] is a field that is [null],
    [undefined] or left out. *)
Record ChatMessage : Type := mkChatMessage {
  msg_role : Role;
  msg_content : option string;
  msg_tool_calls : option (list FunctionToolCall);
  msg_tool_call_id : option string
}.

Definition role_content (r : Role) (c : option string) : ChatMessage :=
  mkChatMessage r c None None.

(** ** The Prompt Builder *)

Definition systemPrompt : string := unlines [
    "You are " +:+ q "AuraHire" +:+ ", a professional and courteous AI-powered interview agent. Your purpose is to conduct a structured initial screening interview for HR roles.";
    "Your process is as follows:";
    "1.  **Initial State**: If the conversation has just begun, you have already greeted the user and asked them to select a role. You are now waiting for their selection.";
    "2.  **Role Selection**: The user's first message will indicate their chosen role, either " +:+ q "Office Staff" +:+ " or " +:+ q "Beauty Host" +:+ ".";
    "3.  **Initiate Interview**: Once the role is identified, acknowledge their selection and begin the structured 5-question interview for that specific role. Ask only ONE question at a time.";
    "4.  **Conduct Interview**: After each user response, ask the next question in the sequence. Be encouraging and maintain a professional tone. Do not deviate from the script.";
    "5.  **Conclusion**: After the 5th question is answered, provide a polite concluding message and end the interview.";
    "**Interview Script for " +:+ q "Office Staff" +:+ ":**";
    "- Question 1: " +:+ q "Great, let's begin. Can you describe your previous experience in an office environment and what your key responsibilities were?";
    "- Question 2: " +:+ q "How do you prioritize your tasks when you have multiple deadlines to meet?";
    "- Question 3: " +:+ q "Describe a time you had to handle a difficult situation with a colleague or client. How did you resolve it?";
    "- Question 4: " +:+ q "What software and tools are you proficient in for office administration?";
    "- Question 5: " +:+ q "What do you believe are the most important qualities for an office staff member to contribute to a positive and efficient workplace?";
    "- Concluding Message: " +:+ q "Thank you for sharing your experiences. That concludes our initial screening. We appreciate your time, and our HR team will be in touch with the next steps. Have a great day!";
    "**Interview Script for " +:+ q "Beauty Host" +:+ ":**";
    "- Question 1: " +:+ q "Excellent, let's get started. What attracts you to the role of a Beauty Host, and what does an elevated brand experience mean to you?";
    "- Question 2: " +:+ q "Can you share an example of a time you went above and beyond to provide exceptional customer service?";
    "- Question 3: " +:+ q "How do you stay updated on the latest beauty trends and product knowledge?";
    "- Question 4: " +:+ q "Describe a situation where you had to assist a client who was unsure about what they wanted. How did you guide them?";
    "- Question 5: " +:+ q "In a fast-paced retail environment, how do you maintain a positive and welcoming atmosphere for every client?";
    "- Concluding Message: " +:+ q "Thank you for your thoughtful answers. That's all the questions I have for now. We appreciate you taking the time to speak with us. Our recruitment team will review your responses and be in contact regarding the next steps. Have a wonderful day!";
    "**Rules of Engagement:**";
    "- Only ask one question at a time.";
    "- Wait for the user's response before proceeding to the next question.";
    "- Do not add any commentary or follow-up questions outside of the script.";
    "- If the user's first message is not a role selection, gently guide them back: " +:+ q "To proceed, please first select a role from the dropdown menu."
  ].

(** [buildConversationMessages]: the system message, the role and content of
    every history message, the new user message. *)
Definition buildConversationMessages {X} (userMessage : string) (history : list (Message X))
  : list ChatMessage :=
  [role_content system (Some systemPrompt)]
  ++ map (fun m => role_content (m_role m) (m_content m)) history
  ++ [role_content user (Some userMessage)].

(** ** Completions, chunks and streams *)

(** The message of a completion choice. *)
Record ResponseMessage : Type := mkResponseMessage {
  rm_content : option string;
  rm_tool_calls : option (list FunctionToolCall)
}.

Record Choice : Type := mkChoice {
  message : option ResponseMessage
}.

Record ChatCompletion : Type := mkChatCompletion {
  choices : list Choice
}.

(** A tool-call fragment of a streamed chunk.  [d_index] is the slot the
    endpoint assigns to the fragment. *)
Record DeltaFunction : Type := mkDeltaFunction {
  d_name : option string;
  d_arguments : option string
}.
Record DeltaToolCall : Type := mkDeltaToolCall {
  d_index : nat;
  d_id : option string;
  d_function : option DeltaFunction
}.

Record Delta : Type := mkDelta {
  d_content : option string;
  d_tool_calls : option (list DeltaToolCall)
}.

Record ChunkChoice : Type := mkChunkChoice {
  delta : Delta
}.

Record Chunk : Type := mkChunk {
  chunk_choices : list ChunkChoice
}.

(** The async iterable of a streamed completion: the chunks it yields, then
    either its end or the error it raises. *)
Record Stream : Type := mkStream {
  chunks : list Chunk;
  fault : option Thrown
}.

(** ** Tool calls and turn results *)

(** An executed tool call ([ToolCall] of [./types]). *)
Record ToolCall : Type := mkToolCall {
  call_id : string;
  call_name : string;
  call_arguments : JsValue;
  call_result : JsValue
}.

Record TurnResult : Type := mkTurnResult {
  content : string;
  toolCalls : option (list ToolCall)
}.

(** ** JavaScript arrays

    An array is the list of its slots, a hole being [None]. *)
Definition array_get {A} (a : list (option A)) (i : nat) : option A :=
  mjoin (a !! i).

(** [a[i] = v]: in range the slot is overwritten, out of range the array
    grows to length [i + 1] and the slots in between are holes. *)
Definition array_set {A} (a : list (option A)) (i : nat) (v : A) : list (option A) :=
  if i <? length a then <[i := Some v]> a
  else a ++ replicate (i - length a) None ++ [Some v].

(** The entries of an array, holes skipped. *)
Definition array_entries {A} (a : list (option A)) : list A := omap id a.

(** [a.slice(-n)]: the last [n] elements, all of them when there are fewer. *)
Definition slice_last {A} (n : nat) (a : list A) : list A := drop (length a - n) a.

(** ** The handler *)

(** What a thrown value tells the catch block of a tool call:
    [error instanceof Error ? error.message : 'Unknown error']. *)
Definition error_message (e : Thrown) : string :=
  match e with
  | ThrownError m => m
  | ThrownValue _ => "Unknown error"
  end.

(** The [onChunk] callback: given the fragments it was handed before and the
    new one, it returns or throws. *)
Definition Sink : Type := list string -> string -> option Thrown.

(** The state of the loop of [handleStreamResponse]: its two local
    variables, the fragments handed to [onChunk] so far and the number of
    clock readings taken. *)
Record StreamState : Type := mkStreamState {
  fullContent : string;
  accumulatedToolCalls : list (option FunctionToolCall);
  forwarded : list string;
  clock_reads : nat
}.

Definition stream_start : StreamState := mkStreamState "" [] [] 0.

(** The record the catch block of a tool call returns. *)
Definition failedToolCall (tc : FunctionToolCall) (error : Thrown) : ToolCall :=
  let name := fn_name (tc_function tc) in
  mkToolCall (tc_id tc) name (JObj [])
    (JObj [("error", JStr ("Failed to execute " +:+ name +:+ ": " +:+ error_message error))]).

(** The id given to an entry whose first fragment has none:
    [`tool_${Date.now()}_${i}`], [now] being the clock reading. *)
Definition generated_id (now : Z) (i : nat) : string :=
  "tool_" +:+ pretty now +:+ "_" +:+ pretty i.

Definition delta_name (d : DeltaToolCall) : string := or_else (d_function d ≫= d_name) "".
Definition delta_arguments (d : DeltaToolCall) : string := or_else (d_function d ≫= d_arguments) "".

Section Handler.

(** The tool registry of [./tools], the built-ins [JSON.parse] and
    [JSON.stringify] (on plain data, where it does not throw; [None] is
    [undefined]) and the clock: [Date_now k] is what the reading number
    [k] of [Date.now()] returns during the turn. *)
Context {ToolDefinition : Type}.
Variable getToolDefinitions : Outcome (list ToolDefinition).
Variable executeTool : string -> JsValue -> Outcome JsValue.
Variable JSON_parse : string -> Outcome JsValue.
Variable JSON_stringify : JsValue -> option string.
Variable Date_now : nat -> Z.

(** The body of a completion request. *)
Record Request : Type := mkRequest {
  req_model : string;
  req_messages : list ChatMessage;
  req_tools : option (list ToolDefinition);
  req_tool_choice : option string;
  req_max_tokens : Z;
  req_stream : option bool
}.

(** The completion client, [client.chat.completions.create] with and
    without [stream: true]. *)
Record OpenAI : Type := mkOpenAI {
  create : Request -> Outcome ChatCompletion;
  create_stream : Request -> Outcome Stream
}.

Record ChatHandler : Type := mkChatHandler {
  client : OpenAI;
  model : string
}.

Definition updateModel (this : ChatHandler) (newModel : string) : ChatHandler :=
  mkChatHandler (client this) newModel.

(** *** Tool execution *)

(** [tc.function.arguments ? JSON.parse(tc.function.arguments) : {}]. *)
Definition parsedArguments (tc : FunctionToolCall) : Outcome JsValue :=
  if truthy (fn_arguments (tc_function tc))
  then JSON_parse (fn_arguments (tc_function tc))
  else Returned (JObj []).

(** The callback that [executeToolCalls] maps over the requests. *)
Definition executeToolCall (tc : FunctionToolCall) : Outcome ToolCall :=
  let name := fn_name (tc_function tc) in
  try_catch
    (args ← parsedArguments tc;
     result ← executeTool name args;
     Returned (mkToolCall (tc_id tc) name args result))
    (fun error => Returned (failedToolCall tc error)).

Definition executeToolCalls (openAiToolCalls : list FunctionToolCall) : Outcome (list ToolCall) :=
  Promise_all (map executeToolCall openAiToolCalls).

(** *** The follow-up call *)

(** The [messages] of the request of [generateToolResponse]. *)
Definition followUpMessages {X} (userMessage : string) (history : list (Message X))
    (openAiToolCalls : list FunctionToolCall) (toolResults : list ToolCall) : list ChatMessage :=
  [role_content system (Some "You are a helpful AI assistant. Respond naturally to the tool results.")]
  ++ map (fun m => role_content (m_role m) (m_content m)) (slice_last 3 history)
  ++ [role_content user (Some userMessage)]
  ++ [mkChatMessage assistant None (Some openAiToolCalls) None]
  ++ imap (fun index result =>
             mkChatMessage tool (JSON_stringify (call_result result)) None
               (Some (or_else (tc_id <$> openAiToolCalls !! index) (call_id result))))
          toolResults.

(** The request of [generateToolResponse]: no tools, no [stream] field. *)
Definition followUpRequest {X} (this : ChatHandler) (userMessage : string)
    (history : list (Message X)) (openAiToolCalls : list FunctionToolCall)
    (toolResults : list ToolCall) : Request :=
  mkRequest (model this)
    (followUpMessages userMessage history openAiToolCalls toolResults)
    None None 4096 None.

(** The text of a completion: [choices[0]?.message?.content]. *)
Definition completion_content (completion : ChatCompletion) : option string :=
  (head (choices completion) ≫= message) ≫= rm_content.

Definition generateToolResponse {X} (this : ChatHandler) (userMessage : string)
    (history : list (Message X)) (openAiToolCalls : list FunctionToolCall)
    (toolResults : list ToolCall) : Outcome string :=
  followUpCompletion ← create (client this)
    (followUpRequest this userMessage history openAiToolCalls toolResults);
  Returned (or_else (completion_content followUpCompletion)
              "Tool results processed successfully.").

(** *** The blocking branch *)

Definition handleNonStreamResponse {X} (this : ChatHandler) (completion : ChatCompletion)
    (message_ : string) (conversationHistory : list (Message X)) : Outcome TurnResult :=
  match head (choices completion) ≫= message with
  | None =>
      Returned (mkTurnResult "I apologize, but I encountered an issue processing your request." None)
  | Some responseMessage =>
      match rm_tool_calls responseMessage with
      | None =>
          Returned (mkTurnResult
                      (or_else (rm_content responseMessage) "I apologize, but I encountered an issue.")
                      None)
      | Some tool_calls =>
          toolCalls ← executeToolCalls tool_calls;
          finalResponse ← generateToolResponse this message_ conversationHistory tool_calls toolCalls;
          Returned (mkTurnResult finalResponse (Some toolCalls))
      end
  end.

(** *** The streaming branch *)

(** One pass of the inner loop: the fragment [deltaToolCall] at position
    [i] of [delta.tool_calls]. *)
Definition mergeToolCall (i : nat) (deltaToolCall : DeltaToolCall) (st : StreamState) : StreamState :=
  match array_get (accumulatedToolCalls st) i with
  | None =>
      let fresh (id : string) (reads : nat) :=
        mkStreamState (fullContent st)
          (array_set (accumulatedToolCalls st) i
             (mkFunctionToolCall id
                (mkFunctionCall (delta_name deltaToolCall) (delta_arguments deltaToolCall))))
          (forwarded st) reads in
      if truthy (or_else (d_id deltaToolCall) "")
      then fresh (or_else (d_id deltaToolCall) "") (clock_reads st)
      else fresh (generated_id (Date_now (clock_reads st)) i) (S (clock_reads st))
  | Some entry =>
      let name :=
        if truthy (delta_name deltaToolCall) && negb (truthy (fn_name (tc_function entry)))
        then delta_name deltaToolCall
        else fn_name (tc_function entry) in
      let arguments :=
        if truthy (delta_arguments deltaToolCall)
        then fn_arguments (tc_function entry) +:+ delta_arguments deltaToolCall
        else fn_arguments (tc_function entry) in
      mkStreamState (fullContent st)
        (array_set (accumulatedToolCalls st) i
           (mkFunctionToolCall (tc_id entry) (mkFunctionCall name arguments)))
        (forwarded st) (clock_reads st)
  end.

(** The inner loop, from index [i] on. *)
Fixpoint mergeToolCalls (i : nat) (tool_calls : list DeltaToolCall) (st : StreamState) : StreamState :=
  match tool_calls with
  | [] => st
  | deltaToolCall :: rest => mergeToolCalls (S i) rest (mergeToolCall i deltaToolCall st)
  end.

(** The body of the [for await] loop. *)
Definition processChunk (onChunk : Sink) (chunk : Chunk) (st : StreamState) : Outcome StreamState :=
  let delta_ := delta <$> head (chunk_choices chunk) in
  st1 ← match delta_ ≫= d_content with
        | Some text =>
            if truthy text then
              match onChunk (forwarded st) text with
              | None =>
                  Returned (mkStreamState (fullContent st +:+ text) (accumulatedToolCalls st)
                              (forwarded st ++ [text]) (clock_reads st))
              | Some e => Threw e
              end
            else Returned st
        | None => Returned st
        end;
  Returned match delta_ ≫= d_tool_calls with
           | Some tool_calls => mergeToolCalls 0 tool_calls st1
           | None => st1
           end.

Fixpoint consumeChunks (onChunk : Sink) (cs : list Chunk) (st : StreamState) : Outcome StreamState :=
  match cs with
  | [] => Returned st
  | chunk :: rest => st' ← processChunk onChunk chunk st; consumeChunks onChunk rest st'
  end.

(** The whole [for await] loop: the chunks, then the fault if there is one. *)
Definition consumeStream (onChunk : Sink) (stream : Stream) : Outcome StreamState :=
  st ← consumeChunks onChunk (chunks stream) stream_start;
  match fault stream with
  | None => Returned st
  | Some e => Threw e
  end.

(** The accumulator is handed on as the list of its entries: it never has a
    hole (lemma [stream_slots] below), so this list is the array itself. *)
Definition handleStreamResponse {X} (this : ChatHandler) (stream : Stream) (message_ : string)
    (conversationHistory : list (Message X)) (onChunk : Sink) : Outcome TurnResult :=
  st ← try_catch (consumeStream onChunk stream)
         (fun _ => Threw (ThrownError "Stream processing failed"));
  if (0 <? length (accumulatedToolCalls st))%nat then
    let requests := array_entries (accumulatedToolCalls st) in
    executedTools ← executeToolCalls requests;
    finalResponse ← generateToolResponse this message_ conversationHistory requests executedTools;
    Returned (mkTurnResult finalResponse (Some executedTools))
  else Returned (mkTurnResult (fullContent st) None).

(** *** One turn *)

(** The request of the primary call. *)
Definition primaryRequest (this : ChatHandler) (messages : list ChatMessage)
    (toolDefinitions : list ToolDefinition) (stream : bool) : Request :=
  mkRequest (model this) messages (Some toolDefinitions) (Some "auto") 4096 (Some stream).

Definition processMessage {X} (this : ChatHandler) (message_ : string)
    (conversationHistory : list (Message X)) (onChunk : option Sink) : Outcome TurnResult :=
  let messages := buildConversationMessages message_ conversationHistory in
  toolDefinitions ← getToolDefinitions;
  match onChunk with
  | Some sink =>
      stream ← create_stream (client this) (primaryRequest this messages toolDefinitions true);
      handleStreamResponse this stream message_ conversationHistory sink
  | None =>
      completion ← create (client this) (primaryRequest this messages toolDefinitions false);
      handleNonStreamResponse this completion message_ conversationHistory
  end.

End Handler.

(** ** A scripted environment

    Concrete collaborators, for running the handler on examples. *)

(** Stand-ins for the two built-ins.  [Json.parse] is [JSON.parse] on the
    texts the examples use: objects, arrays, strings with the two-character
    escapes, integers and the three literals, with white space between
    tokens; any other text is a syntax error.  [Json.stringify] is
    [JSON.stringify] on the values the examples use. *)
Module Json.

Definition is_ws (c : ascii) : bool :=
  let n := N_of_ascii c in
  ((n =? 32) || (n =? 9) || (n =? 10) || (n =? 13))%N.

Definition is_digit (c : ascii) : bool :=
  let n := N_of_ascii c in ((48 <=? n) && (n <=? 57))%N.

Fixpoint skip_ws (s : string) : string :=
  match s with
  | String c s' => if is_ws c then skip_ws s' else s
  | EmptyString => s
  end.

Fixpoint read_digits (acc : Z) (s : string) : Z * string :=
  match s with
  | String c s' =>
      if is_digit c then read_digits (10 * acc + (Z.of_N (N_of_ascii c) - 48)) s' else (acc, s)
  | EmptyString => (acc, s)
  end.

(** A number: an optional minus sign and digits; a fraction or an exponent
    is refused. *)
Definition read_number (s : string) : option (Z * string) :=
  let '(neg, s1) := match s with
                    | String "-" s' => (true, s')
                    | _ => (false, s)
                    end in
  match s1 with
  | String c _ =>
      if is_digit c then
        let '(n, rest) := read_digits 0 s1 in
        match rest with
        | String "." _ | String "e" _ | String "E" _ => None
        | _ => Some (if neg then (- n)%Z else n, rest)
        end
      else None
  | EmptyString => None
  end.

Definition unescape (c : ascii) : option ascii :=
  let n := N_of_ascii c in
  if (n =? 34)%N then Some c
  else if (n =? 92)%N then Some c
  else if (n =? 47)%N then Some c
  else if (n =? 98)%N then Some "008"%char
  else if (n =? 102)%N then Some "012"%char
  else if (n =? 110)%N then Some "010"%char
  else if (n =? 114)%N then Some "013"%char
  else if (n =? 116)%N then Some "009"%char
  else None.

(** The characters of a string up to its closing quote. *)
Fixpoint read_string (s : string) : option (string * string) :=
  match s with
  | EmptyString => None
  | String c s' =>
      let n := N_of_ascii c in
      if (n =? 34)%N then Some (EmptyString, s')
      else if (n =? 92)%N then
        match s' with
        | String e s'' =>
            match unescape e, read_string s'' with
            | Some c', Some (body, rest) => Some (String c' body, rest)
            | _, _ => None
            end
        | EmptyString => None
        end
      else if (n <? 32)%N then None
      else match read_string s' with
           | Some (body, rest) => Some (String c body, rest)
           | None => None
           end
  end.

Definition strip_prefix (p s : string) : option string :=
  if String.prefix p s then Some (String.substring (String.length p) (String.length s - String.length p) s)
  else None.

(** A later property of the same name replaces the value of the earlier
    one and keeps its place. *)
Fixpoint set_prop (k : string) (v : JsValue) (props : list (string * JsValue))
  : list (string * JsValue) :=
  match props with
  | [] => [(k, v)]
  | (k', v') :: rest => if String.eqb k k' then (k, v) :: rest else (k', v') :: set_prop k v rest
  end.

Fixpoint parse_value (fuel : nat) (s : string) : option (JsValue * string) :=
  match fuel with
  | O => None
  | S fuel' =>
      match skip_ws s with
      | String "{" rest =>
          match skip_ws rest with
          | String "}" rest' => Some (JObj [], rest')
          | _ => match parse_members fuel' [] rest with
                 | Some (props, rest') => Some (JObj props, rest')
                 | None => None
                 end
          end
      | String "[" rest =>
          match skip_ws rest with
          | String "]" rest' => Some (JArr [], rest')
          | _ => match parse_elements fuel' rest with
                 | Some (items, rest') => Some (JArr items, rest')
                 | None => None
                 end
          end
      | String "034" rest =>
          match read_string rest with
          | Some (body, rest') => Some (JStr body, rest')
          | None => None
          end
      | s1 =>
          match strip_prefix "true" s1, strip_prefix "false" s1, strip_prefix "null" s1 with
          | Some rest, _, _ => Some (JBool true, rest)
          | _, Some rest, _ => Some (JBool false, rest)
          | _, _, Some rest => Some (JNull, rest)
          | _, _, _ => match read_number s1 with
                       | Some (n, rest) => Some (JNum n, rest)
                       | None => None
                       end
          end
      end
  end
with parse_elements (fuel : nat) (s : string) : option (list JsValue * string) :=
  match fuel with
  | O => None
  | S fuel' =>
      match parse_value fuel' s with
      | Some (v, rest) =>
          match skip_ws rest with
          | String "," rest' =>
              match parse_elements fuel' rest' with
              | Some (vs, rest'') => Some (v :: vs, rest'')
              | None => None
              end
          | String "]" rest' => Some ([v], rest')
          | _ => None
          end
      | None => None
      end
  end
with parse_members (fuel : nat) (seen : list (string * JsValue)) (s : string)
  : option (list (string * JsValue) * string) :=
  match fuel with
  | O => None
  | S fuel' =>
      match skip_ws s with
      | String "034" rest =>
          match read_string rest with
          | Some (key, rest1) =>
              match skip_ws rest1 with
              | String ":" rest2 =>
                  match parse_value fuel' rest2 with
                  | Some (v, rest3) =>
                      match skip_ws rest3 with
                      | String "," rest4 => parse_members fuel' (set_prop key v seen) rest4
                      | String "}" rest4 => Some (set_prop key v seen, rest4)
                      | _ => None
                      end
                  | None => None
                  end
              | _ => None
              end
          | None => None
          end
      | _ => None
      end
  end.

Definition parse (text : string) : Outcome JsValue :=
  match parse_value (2 * String.length text + 2) text with
  | Some (v, rest) =>
      match skip_ws rest with
      | EmptyString => Returned v
      | _ => Threw (ThrownError "Unexpected non-whitespace character after JSON")
      end
  | None => Threw (ThrownError "Unexpected token in JSON")
  end.

Definition bs : string := String "092"%char EmptyString.

Definition hex_digit (n : N) : string :=
  String (nth (N.to_nat n)
            ["0"; "1"; "2"; "3"; "4"; "5"; "6"; "7"; "8"; "9"; "a"; "b"; "c"; "d"; "e"; "f"]%char
            "0"%char) EmptyString.

(** One character of a quoted JSON string, as [JSON.stringify] writes it. *)
Definition json_escape_char (c : ascii) : string :=
  let n := N_of_ascii c in
  if (n =? 34)%N then bs +:+ dq
  else if (n =? 92)%N then bs +:+ bs
  else if (n =? 8)%N then bs +:+ "b"
  else if (n =? 12)%N then bs +:+ "f"
  else if (n =? 10)%N then bs +:+ "n"
  else if (n =? 13)%N then bs +:+ "r"
  else if (n =? 9)%N then bs +:+ "t"
  else if (n <? 32)%N then bs +:+ "u00" +:+ hex_digit (n / 16) +:+ hex_digit (n mod 16)
  else String c EmptyString.

Fixpoint json_escape (s : string) : string :=
  match s with
  | EmptyString => EmptyString
  | String c s' => json_escape_char c +:+ json_escape s'
  end.

Definition json_quote (s : string) : string := dq +:+ json_escape s +:+ dq.

(** [JSON.stringify] on the values the examples use: [undefined] has no
    JSON text, is left out of an object and is written [null] in an array;
    an integer is written by its digits, as JavaScript writes the integers
    below 2^53 in absolute value; the properties of an object are written
    in the order of the list, as JavaScript does for distinct keys that are
    no array indices. *)
Fixpoint stringify (v : JsValue) : option string :=
  match v with
  | JUndefined => None
  | JNull => Some "null"
  | JBool b => Some (if b then "true" else "false")
  | JNum n => Some (pretty n)
  | JStr s => Some (json_quote s)
  | JArr items =>
      Some ("[" +:+ String.concat "," (map (fun x => default "null" (stringify x)) items) +:+ "]")
  | JObj props =>
      Some ("{" +:+ String.concat ","
              (omap (fun kv => (fun s => json_quote (fst kv) +:+ ":" +:+ s) <$> stringify (snd kv))
                    props) +:+ "}")
  end.

End Json.

Module Script.

(** The registry: [echo] returns its arguments, [lookup] finds nothing,
    [crash] throws a value that is not an [Error], any other name is
    unknown. *)
Definition getToolDefinitions : Outcome (list string) := Returned ["echo"; "lookup"; "crash"].

Definition executeTool (name : string) (args : JsValue) : Outcome JsValue :=
  if String.eqb name "echo" then Returned args
  else if String.eqb name "lookup" then Returned (JObj [("hits", JArr [])])
  else if String.eqb name "crash" then Threw (ThrownValue (JStr "disk full"))
  else Threw (ThrownError ("Unknown tool: " +:+ name)).

Definition Date_now (k : nat) : Z := 1759209297000 + Z.of_nat k.

(** A client that answers the primary call with [primary] or [stream] and
    the follow-up call, the one request without a [stream] field, with
    [followUp]. *)
Definition scripted (primary : Outcome ChatCompletion) (stream : Outcome Stream)
    (followUp : Outcome ChatCompletion) : @OpenAI string :=
  mkOpenAI
    (fun req => match req_stream req with
                | Some _ => primary
                | None => followUp
                end)
    (fun _ => stream).

Definition handler (primary : Outcome ChatCompletion) (stream : Outcome Stream)
    (followUp : Outcome ChatCompletion) : @ChatHandler string :=
  mkChatHandler (scripted primary stream followUp) "interview-model".

(** Completions and chunks. *)
Definition reply (text : option string) (tool_calls : option (list FunctionToolCall))
  : ChatCompletion :=
  mkChatCompletion [mkChoice (Some (mkResponseMessage text tool_calls))].

Definition content_chunk (text : string) : Chunk :=
  mkChunk [mkChunkChoice (mkDelta (Some text) None)].

Definition tool_chunk (fragments : list DeltaToolCall) : Chunk :=
  mkChunk [mkChunkChoice (mkDelta None (Some fragments))].

Definition fragment (index : nat) (id name arguments : option string) : DeltaToolCall :=
  mkDeltaToolCall index id (Some (mkDeltaFunction name arguments)).

(** A callback that takes every fragment, and one that throws on the
    second. *)
Definition quiet : Sink := fun _ _ => None.
Definition fragile : Sink := fun before _ =>
  match before with
  | [] => None
  | _ => Some (ThrownError "socket closed")
  end.

(** A stored message: the rest of it is its time stamp. *)
Definition stored (r : Role) (text : string) (timestamp : Z) : Message Z :=
  mkMessage r (Some text) timestamp.

Definition run {X} (this : @ChatHandler string) (message_ : string)
    (history : list (Message X)) (onChunk : option Sink) : Outcome TurnResult :=
  processMessage getToolDefinitions executeTool Json.parse Json.stringify Date_now
    this message_ history onChunk.

(** Requests, streams and histories of the examples. *)
Definition v1 : string := "{" +:+ q "v" +:+ ":1}".

Definition echo_request : FunctionToolCall :=
  mkFunctionToolCall "call_echo" (mkFunctionCall "echo" v1).
Definition crash_request : FunctionToolCall :=
  mkFunctionToolCall "call_crash" (mkFunctionCall "crash" "").

Definition lookup_chunks : list Chunk :=
  [tool_chunk [fragment 0 (Some "call_lookup") (Some "lookup") (Some ("{" +:+ q "q" +:+ ":"))];
   content_chunk "";
   tool_chunk [fragment 0 None None (Some (q "x" +:+ "}"))]].

Definition question1 : string :=
  "Great, let's begin. Can you describe your previous experience in an office environment "
  +:+ "and what your key responsibilities were?".

Definition question1_chunks : list Chunk :=
  [content_chunk "Great, let's begin. ";
   mkChunk [];
   content_chunk ("Can you describe your previous experience in an office environment "
                  +:+ "and what your key responsibilities were?")].

Definition greeting : list (Message Z) :=
  [stored assistant "Welcome to AuraHire." 1759209290000;
   stored user "I've selected the Office Staff role." 1759209295000].

Definition greeting_later : list (Message Z) :=
  [stored assistant "Welcome to AuraHire." 1759300000000;
   stored user "I've selected the Office Staff role." 1759300005000].

End Script.

(** ** Vocabulary of the properties *)

(** The delta of a chunk and the tool-call fragments it carries. *)
Definition chunk_delta (c : Chunk) : option Delta := delta <$> head (chunk_choices c).

Definition chunk_fragments (c : Chunk) : list DeltaToolCall :=
  default [] (chunk_delta c ≫= d_tool_calls).

(** The fragments that arrive at position [i], in the order of arrival. *)
Definition fragments_at (i : nat) (cs : list Chunk) : list DeltaToolCall :=
  omap (fun c => chunk_fragments c !! i) cs.

(** The name and the arguments text that a first fragment and the later ones
    of the same position add up to: a later fragment appends its arguments
    and gives its name only while there is none. *)
Definition merged_name (first : DeltaToolCall) (later : list DeltaToolCall) : string :=
  fold_left (fun name d => if truthy name then name else delta_name d) later (delta_name first).

Definition merged_arguments (first : DeltaToolCall) (later : list DeltaToolCall) : string :=
  fold_left (fun text d => text +:+ delta_arguments d) later (delta_arguments first).

(** An array without holes. *)
Definition dense {A} (a : list (option A)) : Prop := Forall is_Some a.

(** What one fragment at position [i] makes of the slot [old]. *)
Definition slot_step (Date_now : nat -> Z) (i : nat) (old : option FunctionToolCall)
    (d : DeltaToolCall) (new : FunctionToolCall) : Prop :=
  match old with
  | None =>
      ∃ k, new = mkFunctionToolCall (or_else (d_id d) (generated_id (Date_now k) i))
                   (mkFunctionCall (delta_name d) (delta_arguments d))
  | Some entry =>
      new = mkFunctionToolCall (tc_id entry)
              (mkFunctionCall
                 (if truthy (fn_name (tc_function entry))
                  then fn_name (tc_function entry) else delta_name d)
                 (fn_arguments (tc_function entry) +:+ delta_arguments d))
  end.

(** What a sequence of fragments at position [i] makes of the slot [old]. *)
Fixpoint slot_run (Date_now : nat -> Z) (i : nat) (old : option FunctionToolCall)
    (ds : list DeltaToolCall) (final : option FunctionToolCall) : Prop :=
  match ds with
  | [] => final = old
  | d :: ds' => ∃ new, slot_step Date_now i old d new ∧ slot_run Date_now i (Some new) ds' final
  end.

(** The tool calls a completion asks for. *)
Definition completion_tool_calls (completion : ChatCompletion) : list FunctionToolCall :=
  default [] ((head (choices completion) ≫= message) ≫= rm_tool_calls).

(** The text a chunk carries, and the text the chunks of a stream add up to. *)
Definition chunk_content (c : Chunk) : string := or_else (chunk_delta c ≫= d_content) "".

Definition stream_text (cs : list Chunk) : string :=
  fold_right (fun c text => chunk_content c +:+ text) "" cs.

(** A callback that never throws. *)
Definition never_throws (onChunk : Sink) : Prop := ∀ before text, onChunk before text = None.

(** ** Further vocabulary *)

(** The text of a list of fragments. *)
Definition text_of (fragments : list string) : string := fold_right String.append "" fragments.

(** The content fragments of the chunks that are not empty, in the order of
    arrival. *)
Definition forwarded_fragments (cs : list Chunk) : list string :=
  omap (fun c => if truthy (chunk_content c) then Some (chunk_content c) else None) cs.

(** The first error the callback raises when it is handed [fragments] one by
    one after [before], if it raises one. *)
Fixpoint first_refusal (onChunk : Sink) (before fragments : list string) : option Thrown :=
  match fragments with
  | [] => None
  | text :: rest =>
      match onChunk before text with
      | Some e => Some e
      | None => first_refusal onChunk (before ++ [text]) rest
      end
  end.

(** A chunk and a completion cut down to their first choice. *)
Definition first_choice_of_chunk (c : Chunk) : Chunk := mkChunk (take 1 (chunk_choices c)).

Definition first_choice_of_completion (completion : ChatCompletion) : ChatCompletion :=
  mkChatCompletion (take 1 (choices completion)).

(** Whether a character occurs in a string. *)
Fixpoint occurs (c : ascii) (s : string) : bool :=
  match s with
  | EmptyString => false
  | String c' s' => if Ascii.eqb c c' then true else occurs c s'
  end.

Section Retargeted.

Context {ToolDefinition : Type}.

(** A request with its model replaced, and a client that is sent every
    request with the model [m]. *)
Definition set_model (m : string) (r : @Request ToolDefinition) : Request :=
  mkRequest m (req_messages r) (req_tools r) (req_tool_choice r) (req_max_tokens r)
    (req_stream r).

Definition with_model (m : string) (c : @OpenAI ToolDefinition) : OpenAI :=
  mkOpenAI (fun r => create c (set_model m r)) (fun r => create_stream c (set_model m r)).

End Retargeted.

(** * The chat page: [HomePage]

    The state of the React component and its event handlers.  A handler
    runs with the state of the last render and its state updates are
    applied in the order they are queued.  A handler that sends a message is
    taken together with the exchange it starts: while the exchange is
    running the page is loading, every control is disabled and no other
    handler can run.  The chat service is outside the sources; an exchange
    is what it does with one message: the chunks it hands to the callback
    and whether its promise is fulfilled. *)
Module HomePage.

Inductive Role : Type := user | assistant.

Record Message : Type := mkMessage {
  msg_id : string;
  msg_role : Role;
  msg_content : string
}.

Inductive InterviewRole : Type := OfficeStaff | BeautyHost.

Definition role_label (r : InterviewRole) : string :=
  match r with
  | OfficeStaff => "Office Staff"
  | BeautyHost => "Beauty Host"
  end.

Inductive Stage : Type := start | in_progress | finished.

Definition Stage_eqb (a b : Stage) : bool :=
  match a, b with
  | start, start | in_progress, in_progress | finished, finished => true
  | _, _ => false
  end.

Record Exchange : Type := mkExchange {
  delivered : list string;
  fulfilled : bool
}.

(** The state of the component, with the number of ids drawn from
    [crypto.randomUUID], the messages handed to [chatService.sendMessage]
    and the number of calls of [chatService.newSession]. *)
Record State : Type := mkState {
  role : option InterviewRole;
  messages : list Message;
  input : string;
  isLoading : bool;
  interviewStage : Stage;
  uuids : nat;
  outbox : list string;
  sessions : nat
}.

(** ** Text tests *)

(** [!text.trim()]: the text holds nothing but white space and line
    terminators, read as UTF-8: the ASCII ones, U+00A0, U+1680, U+2000 to
    U+200A, U+2028, U+2029, U+202F, U+205F, U+3000 and U+FEFF. *)
Fixpoint blank (text : string) : bool :=
  match text with
  | EmptyString => true
  | String c rest =>
      let n := N_of_ascii c in
      if ((9 <=? n) && (n <=? 13) || (n =? 32))%N then blank rest
      else
        match rest with
        | String c2 rest2 =>
            let n2 := N_of_ascii c2 in
            if ((n =? 194) && (n2 =? 160))%N then blank rest2
            else
              match rest2 with
              | String c3 rest3 =>
                  let n3 := N_of_ascii c3 in
                  if ((n =? 225) && (n2 =? 154) && (n3 =? 128)
                      || (n =? 226) && (n2 =? 128)
                         && ((128 <=? n3) && (n3 <=? 138) || (n3 =? 168) || (n3 =? 169)
                             || (n3 =? 175))
                      || (n =? 226) && (n2 =? 129) && (n3 =? 159)
                      || (n =? 227) && (n2 =? 128) && (n3 =? 128)
                      || (n =? 239) && (n2 =? 187) && (n3 =? 191))%N
                  then blank rest3
                  else false
              | EmptyString => false
              end
        | EmptyString => false
        end
  end.

(** The lower case of a text as far as a search for ASCII text can tell:
    the letters A to Z, the Kelvin sign U+212A (lower case k) and the
    dotted capital I U+0130 (lower case i and a combining dot) are the
    only characters whose lower case holds an ASCII character. *)
Fixpoint lowered (text : string) : string :=
  match text with
  | EmptyString => EmptyString
  | String c rest =>
      let n := N_of_ascii c in
      if ((65 <=? n) && (n <=? 90))%N then String (ascii_of_N (n + 32)) (lowered rest)
      else
        match rest with
        | String c2 rest2 =>
            let n2 := N_of_ascii c2 in
            if ((n =? 196) && (n2 =? 176))%N
            then String "i" (String "204" (String "135" (lowered rest2)))
            else
              match rest2 with
              | String c3 rest3 =>
                  if ((n =? 226) && (n2 =? 132) && (N_of_ascii c3 =? 170))%N
                  then String "k" (lowered rest3)
                  else String c (lowered rest)
              | EmptyString => String c (lowered rest)
              end
        | EmptyString => String c EmptyString
        end
  end.

(** [text.includes(wanted)]. *)
Fixpoint includes (text wanted : string) : bool :=
  if String.prefix wanted text then true
  else match text with
       | EmptyString => false
       | String _ rest => includes rest wanted
       end.

(** The test that ends the interview:
    [streamingMessage.toLowerCase().includes("thank you for your time")]. *)
Definition is_farewell (streamingMessage : string) : bool :=
  includes (lowered streamingMessage) "thank you for your time".

(** The concluding messages of the two scripts, as [systemPrompt] of the
    worker gives them. *)
Definition concluding_message (r : InterviewRole) : string :=
  match r with
  | OfficeStaff =>
      "Thank you for sharing your experiences. That concludes our initial screening. "
      +:+ "We appreciate your time, and our HR team will be in touch with the next steps. "
      +:+ "Have a great day!"
  | BeautyHost =>
      "Thank you for your thoughtful answers. That's all the questions I have for now. "
      +:+ "We appreciate you taking the time to speak with us. Our recruitment team will "
      +:+ "review your responses and be in contact regarding the next steps. "
      +:+ "Have a wonderful day!"
  end.

(** A conversation as the page shows it: a message of the assistant, then
    messages of the user each followed by one of the assistant. *)
Fixpoint alternates (roles : list Role) : bool :=
  match roles with
  | [assistant] => true
  | assistant :: user :: rest => alternates rest
  | _ => false
  end.

(** ** Handlers *)

Definition welcome : string :=
  "Welcome to AuraHire. I'm your AI-powered interview agent. To begin, please select "
  +:+ "the role you're applying for from the dropdown menu above.".

Definition with_content (m : Message) (text : string) : Message :=
  mkMessage (msg_id m) (msg_role m) text.

(** The update of [messages] in the chunk callback: when the last message
    is the reply it gets the text, otherwise every message with the id of
    the reply does. *)
Definition show_reply (assistantMessageId streamingMessage : string) (prev : list Message)
  : list Message :=
  let everywhere :=
    map (fun m => if String.eqb (msg_id m) assistantMessageId
                  then with_content m streamingMessage else m) prev in
  match last prev with
  | Some lastMessage =>
      if String.eqb (msg_id lastMessage) assistantMessageId
      then take (length prev - 1) prev ++ [with_content lastMessage streamingMessage]
      else everywhere
  | None => everywhere
  end.

(** The chunk callback over the chunks of an exchange. *)
Fixpoint stream_reply (assistantMessageId : string) (chunks : list string)
    (streamingMessage : string) (prev : list Message) : string * list Message :=
  match chunks with
  | [] => (streamingMessage, prev)
  | chunk :: rest =>
      stream_reply assistantMessageId rest (streamingMessage +:+ chunk)
        (show_reply assistantMessageId (streamingMessage +:+ chunk) prev)
  end.

Section Handlers.

(** [randomUUID k] is the id number [k] that [crypto.randomUUID] gives. *)
Variable randomUUID : nat -> string.

(** The first effect: it runs after the first render and after every
    render that changed the stage. *)
Definition welcomeEffect (s : State) : State :=
  match interviewStage s, messages s with
  | start, [] =>
      mkState (role s) [mkMessage (randomUUID (uuids s)) assistant welcome] (input s)
        (isLoading s) (interviewStage s) (S (uuids s)) (outbox s) (sessions s)
  | _, _ => s
  end.

Definition handleRoleSelect (s : State) (selectedRole : InterviewRole) (ex : Exchange)
  : State :=
  match interviewStage s with
  | start =>
      let startMessage := "I've selected the " +:+ role_label selectedRole +:+ " role." in
      let userMessage := mkMessage (randomUUID (uuids s)) user startMessage in
      let assistantMessageId := randomUUID (S (uuids s)) in
      let '(streamingMessage, shown) :=
        stream_reply assistantMessageId (delivered ex) ""
          (messages s ++ [userMessage; mkMessage assistantMessageId assistant ""]) in
      if fulfilled ex then
        mkState (Some selectedRole) shown (input s) false
          (if is_farewell streamingMessage then finished else in_progress)
          (S (S (uuids s))) (outbox s ++ [startMessage]) (sessions s)
      else
        mkState (Some selectedRole) shown (input s) true in_progress
          (S (S (uuids s))) (outbox s ++ [startMessage]) (sessions s)
  | _ => s
  end.

Definition handleSubmit (s : State) (ex : Exchange) : State :=
  if blank (input s) || isLoading s || negb (Stage_eqb (interviewStage s) in_progress)
  then s
  else
    let userMessage := mkMessage (randomUUID (uuids s)) user (input s) in
    let currentInput := input s in
    let assistantMessageId := randomUUID (S (uuids s)) in
    let '(streamingMessage, shown) :=
      stream_reply assistantMessageId (delivered ex) ""
        ((messages s ++ [userMessage]) ++ [mkMessage assistantMessageId assistant ""]) in
    if fulfilled ex then
      mkState (role s) shown "" false
        (if is_farewell streamingMessage then finished else interviewStage s)
        (S (S (uuids s))) (outbox s ++ [currentInput]) (sessions s)
    else
      mkState (role s) shown "" true (interviewStage s)
        (S (S (uuids s))) (outbox s ++ [currentInput]) (sessions s).

Definition handleNewInterview (s : State) : State :=
  mkState None [] "" false start (uuids s) (outbox s) (S (sessions s)).

(** ** Events *)

Inductive Event : Type :=
  | SelectRole (selectedRole : InterviewRole) (ex : Exchange)
  | Typing (text : string)
  | Submit (ex : Exchange)
  | NewInterview.

(** An event on the controls as they are rendered: the select is
    disabled out of the stage [start], the text area while loading or
    out of the stage [in_progress], the form is replaced by the button
    of a new interview in the stage [finished]. *)
Definition dispatch (s : State) (ev : Event) : State :=
  match ev with
  | SelectRole selectedRole ex =>
      if Stage_eqb (interviewStage s) start then handleRoleSelect s selectedRole ex else s
  | Typing text =>
      if negb (isLoading s) && Stage_eqb (interviewStage s) in_progress
      then mkState (role s) (messages s) text (isLoading s) (interviewStage s) (uuids s)
             (outbox s) (sessions s)
      else s
  | Submit ex =>
      if Stage_eqb (interviewStage s) finished then s else handleSubmit s ex
  | NewInterview =>
      if Stage_eqb (interviewStage s) finished then handleNewInterview s else s
  end.

Definition step (s : State) (ev : Event) : State :=
  let s' := dispatch s ev in
  if Stage_eqb (interviewStage s) (interviewStage s') then s' else welcomeEffect s'.

Definition mounted : State :=
  welcomeEffect (mkState None [] "" false start 0 [] 0).

Definition run (events : list Event) (s : State) : State := fold_left step events s.

End Handlers.

(** What holds of the page between two events. *)
Definition consistent (s : State) : Prop :=
  (role s = None ↔ interviewStage s = start)
  ∧ (interviewStage s = start →
     ∃ id, messages s = [mkMessage id assistant welcome]
           ∧ input s = "" ∧ isLoading s = false)
  ∧ (interviewStage s = finished → isLoading s = false)
  ∧ (∃ id rest, messages s = mkMessage id assistant welcome :: rest)
  ∧ alternates (map msg_role (messages s)) = true.

End HomePage.

(** ** Further examples *)

Module Cases.

(** Two tool calls as the endpoint streams them: every chunk carries one
    fragment, which names its call by its index. *)
Definition parallel_chunks : list Chunk :=
  [Script.tool_chunk [Script.fragment 0 (Some "call_a") (Some "get_weather") (Some "")];
   Script.tool_chunk [Script.fragment 0 None None (Some ("{" +:+ q "city" +:+ ":" +:+ q "Paris" +:+ "}"))];
   Script.tool_chunk [Script.fragment 1 (Some "call_b") (Some "get_time") (Some "")];
   Script.tool_chunk [Script.fragment 1 None None (Some ("{" +:+ q "tz" +:+ ":" +:+ q "CET" +:+ "}"))]].

(** One chunk with two fragments that have no id. *)
Definition anonymous_chunks : list Chunk :=
  [Script.tool_chunk [Script.fragment 0 None (Some "echo") (Some "");
                      Script.fragment 1 None (Some "lookup") (Some "")]].

Definition long_history : list (Message Z) :=
  [Script.stored assistant "Welcome to AuraHire." 1;
   Script.stored user "I've selected the Office Staff role." 2;
   Script.stored assistant "Great, let's begin." 3;
   Script.stored user "I worked at a bank." 4;
   Script.stored assistant "How do you prioritize your tasks?" 5].

Definition no_arguments_request : FunctionToolCall :=
  mkFunctionToolCall "call_plain" (mkFunctionCall "echo" "").

(** A parser that refuses every text. *)
Definition refusing_parser (text : string) : Outcome JsValue :=
  Threw (ThrownError "Unexpected token").

Definition idle : @ChatHandler string :=
  Script.handler (Threw (ThrownError "unused")) (Threw (ThrownError "unused"))
    (Threw (ThrownError "unused")).

(** The ids of the page, and a page on which an answer has been typed. *)
Definition randomUUID (k : nat) : string := "id-" +:+ pretty k.

Definition answering : HomePage.State :=
  HomePage.run randomUUID
    [HomePage.SelectRole HomePage.OfficeStaff
       (HomePage.mkExchange ["Great, "; "let's begin."] true);
     HomePage.Typing "I worked at a bank."]
    (HomePage.mounted randomUUID).

End Cases.

(** * Properties *)

(** ** The Prompt Builder *)

Lemma buildConversationMessages_length {X} (userMessage : string) (history : list (Message X)) :
  length (buildConversationMessages userMessage history) = length history + 2.
Proof.
  unfold buildConversationMessages.
  rewrite !length_app, length_map. simpl. lia.
Qed.

(** C3. The output of the Prompt Builder has [length history + 2] elements:
    first the system message whose content is the fixed text [systemPrompt],
    then one message for every history message, in the order of the history,
    with the role and the content of that message, last the user message
    whose content is the latest text.  No message of the output carries tool
    calls or a tool call id. *)
Theorem buildConversationMessages_shape {X} (userMessage : string) (history : list (Message X)) :
  let out := buildConversationMessages userMessage history in
  length out = length history + 2
  ∧ out !! 0 = Some (mkChatMessage system (Some systemPrompt) None None)
  ∧ take (length history) (drop 1 out)
      = map (fun m => mkChatMessage (m_role m) (m_content m) None None) history
  ∧ (∀ i m, history !! i = Some m →
            out !! (S i) = Some (mkChatMessage (m_role m) (m_content m) None None))
  ∧ out !! (S (length history)) = Some (mkChatMessage user (Some userMessage) None None)
  ∧ last out = Some (mkChatMessage user (Some userMessage) None None).
Proof.
  cbv zeta. split; [apply buildConversationMessages_length|].
  unfold buildConversationMessages, role_content.
  split; [reflexivity|].
  split.
  { simpl. rewrite drop_0.
    rewrite <- (length_map (fun m => mkChatMessage (m_role m) (m_content m) None None)
                  history) at 1.
    apply take_app_length. }
  split.
  { intros i m Hm. simpl.
    rewrite lookup_app_l by (rewrite length_map; eapply lookup_lt_Some; eauto).
    rewrite list_lookup_fmap, Hm. reflexivity. }
  split.
  { simpl. rewrite lookup_app_r by (rewrite length_map; lia).
    rewrite length_map, Nat.sub_diag. reflexivity. }
  rewrite app_assoc. apply last_snoc.
Qed.

(** ** Tool execution *)

Section ToolExecution.

Variable executeTool : string -> JsValue -> Outcome JsValue.
Variable JSON_parse : string -> Outcome JsValue.

(** What the callback settles to, whatever is thrown inside it. *)
Lemma executeToolCall_settles (tc : FunctionToolCall) :
  executeToolCall executeTool JSON_parse tc =
    Returned match parsedArguments JSON_parse tc with
             | Threw e => failedToolCall tc e
             | Returned args =>
                 match executeTool (fn_name (tc_function tc)) args with
                 | Threw e => failedToolCall tc e
                 | Returned result =>
                     mkToolCall (tc_id tc) (fn_name (tc_function tc)) args result
                 end
             end.
Proof.
  unfold executeToolCall.
  destruct (parsedArguments JSON_parse tc) as [args|e]; simpl; [|reflexivity].
  destruct (executeTool (fn_name (tc_function tc)) args); reflexivity.
Qed.

Lemma executeToolCall_id (tc : FunctionToolCall) (t : ToolCall) :
  executeToolCall executeTool JSON_parse tc = Returned t →
  call_id t = tc_id tc ∧ call_name t = fn_name (tc_function tc).
Proof.
  rewrite executeToolCall_settles. intros [= <-].
  destruct (parsedArguments JSON_parse tc) as [args|e]; [|done].
  destruct (executeTool (fn_name (tc_function tc)) args); done.
Qed.

Lemma Promise_all_returned {A} (ps : list (Outcome A)) (l : list A) :
  Forall2 (fun p a => p = Returned a) ps l → Promise_all ps = Returned l.
Proof.
  induction 1 as [|p a ps l -> _ IH]; [reflexivity|].
  simpl. rewrite IH. reflexivity.
Qed.

Lemma executeToolCalls_returns (tcs : list FunctionToolCall) :
  ∃ results, executeToolCalls executeTool JSON_parse tcs = Returned results
             ∧ Forall2 (fun tc t => executeToolCall executeTool JSON_parse tc = Returned t) tcs results.
Proof.
  induction tcs as [|tc tcs (results & Hres & Hall)].
  - exists []. split; [reflexivity | constructor].
  - destruct (executeToolCall executeTool JSON_parse tc) as [t|e] eqn:Ht.
    + exists (t :: results). split; [|by constructor].
      unfold executeToolCalls in *. simpl. rewrite Ht. simpl.
      rewrite Hres. reflexivity.
    + rewrite executeToolCall_settles in Ht. discriminate.
Qed.

(** C2, amended. [executeToolCalls] always returns, with one entry per
    request and, at every position, the id of the request of that
    position.  A request whose executor throws an [Error] gets an entry
    whose result is the object with the one field [error], the text
    "Failed to execute <name>: <message>" with the name of the tool and
    the message of the error; when what the executor throws is not an
    [Error], the text is "Failed to execute <name>: Unknown error",
    whatever was thrown.  Every request whose executor returns gets its
    own result, whatever the others do. *)
Theorem executeToolCalls_one_per_request (tcs : list FunctionToolCall) :
  ∃ results,
    executeToolCalls executeTool JSON_parse tcs = Returned results
    ∧ length results = length tcs
    ∧ map call_id results = map tc_id tcs
    ∧ (∀ i tc args description,
         tcs !! i = Some tc →
         parsedArguments JSON_parse tc = Returned args →
         executeTool (fn_name (tc_function tc)) args = Threw (ThrownError description) →
         ∃ t, results !! i = Some t
              ∧ call_id t = tc_id tc
              ∧ call_result t =
                  JObj [("error",
                         JStr ("Failed to execute " +:+ fn_name (tc_function tc) +:+ ": "
                               +:+ description))])
    ∧ (∀ i tc args thrown,
         tcs !! i = Some tc →
         parsedArguments JSON_parse tc = Returned args →
         executeTool (fn_name (tc_function tc)) args = Threw (ThrownValue thrown) →
         ∃ t, results !! i = Some t
              ∧ call_id t = tc_id tc
              ∧ call_result t =
                  JObj [("error",
                         JStr ("Failed to execute " +:+ fn_name (tc_function tc)
                               +:+ ": Unknown error"))])
    ∧ (∀ j tc args result,
         tcs !! j = Some tc →
         parsedArguments JSON_parse tc = Returned args →
         executeTool (fn_name (tc_function tc)) args = Returned result →
         results !! j = Some (mkToolCall (tc_id tc) (fn_name (tc_function tc)) args result)).
Proof.
  destruct (executeToolCalls_returns tcs) as (results & Hres & Hall).
  exists results. split; [exact Hres|].
  split; [symmetry; eapply Forall2_length; eauto|].
  split.
  { clear Hres. induction Hall as [|tc t tcs results Ht _ IH]; [reflexivity|].
    simpl. rewrite IH. apply executeToolCall_id in Ht as [-> _]. reflexivity. }
  split; [|split].
  - intros i tc args description Hi Hargs Hexec.
    destruct (Forall2_lookup_l _ _ _ _ _ Hall Hi) as (t & Ht & Hrun).
    exists t. rewrite executeToolCall_settles, Hargs, Hexec in Hrun.
    injection Hrun as <-. done.
  - intros i tc args thrown Hi Hargs Hexec.
    destruct (Forall2_lookup_l _ _ _ _ _ Hall Hi) as (t & Ht & Hrun).
    exists t. rewrite executeToolCall_settles, Hargs, Hexec in Hrun.
    injection Hrun as <-. done.
  - intros j tc args result Hj Hargs Hexec.
    destruct (Forall2_lookup_l _ _ _ _ _ Hall Hj) as (t & Ht & Hrun).
    rewrite executeToolCall_settles, Hargs, Hexec in Hrun.
    injection Hrun as <-. done.
Qed.


End ToolExecution.

(** ** Strings and arrays *)

Lemma append_empty_r (s : string) : s +:+ "" = s.
Proof.
  induction s as [|c s IH]; [reflexivity|].
  unfold String.append; fold String.append. by f_equal.
Qed.

Lemma append_assoc (s t u : string) : (s +:+ t) +:+ u = s +:+ (t +:+ u).
Proof.
  induction s as [|c s IH]; [reflexivity|].
  unfold String.append; fold String.append. by f_equal.
Qed.

Lemma truthy_false (s : string) : truthy s = false → s = "".
Proof. by destruct s. Qed.

Lemma or_else_truthy (o : option string) (d : string) :
  truthy (or_else o "") = true → or_else o d = or_else o "".
Proof. destruct o as [[|c s]|]; simpl; done. Qed.

Lemma or_else_falsy (o : option string) (d : string) :
  truthy (or_else o "") = false → or_else o d = d.
Proof. destruct o as [[|c s]|]; simpl; done. Qed.

Lemma array_get_dense {A} (a : list (option A)) (i : nat) :
  dense a → array_get a i = None → length a ≤ i.
Proof.
  intros Hd Hget. destruct (decide (i < length a)) as [Hlt|]; [|lia].
  destruct (lookup_lt_is_Some_2 a i Hlt) as [x Hx].
  unfold array_get in Hget. rewrite Hx in Hget. simpl in Hget. subst x.
  eapply Forall_lookup_1 in Hd; [|exact Hx]. by destruct Hd.
Qed.

Lemma array_get_Some {A} (a : list (option A)) (i : nat) (x : A) :
  array_get a i = Some x → a !! i = Some (Some x) ∧ i < length a.
Proof.
  unfold array_get. destruct (a !! i) as [[y|]|] eqn:Hi; simpl; try done.
  intros [= ->]. split; [done|]. eapply lookup_lt_Some; eauto.
Qed.

Lemma array_set_spec {A} (a : list (option A)) (i : nat) (v : A) :
  dense a → i ≤ length a →
  dense (array_set a i v)
  ∧ length (array_set a i v) = length a `max` S i
  ∧ array_set a i v !! i = Some (Some v)
  ∧ ∀ j, j ≠ i → array_set a i v !! j = a !! j.
Proof.
  intros Hd Hi. unfold array_set.
  destruct (i <? length a)%nat eqn:Hlt.
  - apply Nat.ltb_lt in Hlt.
    split; [apply Forall_insert; [done | by eexists]|].
    split; [rewrite length_insert; lia|].
    split; [by apply list_lookup_insert_eq|].
    intros j Hj. by apply list_lookup_insert_ne.
  - apply Nat.ltb_ge in Hlt. assert (i = length a) as -> by lia.
    rewrite Nat.sub_diag. simpl.
    split; [apply Forall_app; split; [done|]; constructor; [by eexists | constructor]|].
    split; [rewrite length_app; simpl; lia|].
    split; [by rewrite lookup_app_r, Nat.sub_diag|].
    intros j Hj. destruct (decide (j < length a)).
    + by rewrite lookup_app_l.
    + rewrite lookup_app_r by lia.
      rewrite (lookup_ge_None_2 a j) by lia.
      destruct (j - length a) as [|m] eqn:Hm; [lia|]. done.
Qed.

(** ** The accumulator of the streaming branch *)

Section Accumulator.

Variable Date_now : nat -> Z.

(** After a write [array_set a i v] in range or at the end: the array
    facts of the goal follow from [array_set_spec], the new entry is left
    to describe. *)
Ltac slot_written Hd Hi :=
  match goal with
  | |- context [array_set ?a ?i ?v] =>
      destruct (array_set_spec a i v Hd Hi) as (? & ? & ? & ?);
      split; [assumption|]; split; [assumption|]; split; [assumption|];
      exists v; split; [assumption|]
  end.

(** One fragment at position [i]: the slot [i] is stepped, the others are
    left alone, and the array stays without holes. *)
Lemma mergeToolCall_slot (i : nat) (d : DeltaToolCall) (st : StreamState) :
  dense (accumulatedToolCalls st) →
  i ≤ length (accumulatedToolCalls st) →
  let st' := mergeToolCall Date_now i d st in
  dense (accumulatedToolCalls st')
  ∧ length (accumulatedToolCalls st') = length (accumulatedToolCalls st) `max` S i
  ∧ (∀ j, j ≠ i → accumulatedToolCalls st' !! j = accumulatedToolCalls st !! j)
  ∧ ∃ new, accumulatedToolCalls st' !! i = Some (Some new)
           ∧ slot_step Date_now i (array_get (accumulatedToolCalls st) i) d new.
Proof.
  intros Hd Hi. cbv zeta. unfold mergeToolCall.
  destruct (array_get (accumulatedToolCalls st) i) as [entry|] eqn:Hget.
  - simpl.
    slot_written Hd Hi.
    simpl. f_equal. f_equal.
    + destruct (truthy (fn_name (tc_function entry))) eqn:Hn.
      * by rewrite andb_false_r.
      * rewrite andb_true_r. destruct (truthy (delta_name d)) eqn:Hdn; [done|].
        apply truthy_false in Hn, Hdn. congruence.
    + destruct (truthy (delta_arguments d)) eqn:Hda; [done|].
      apply truthy_false in Hda. rewrite Hda. symmetry. apply append_empty_r.
  - destruct (truthy (or_else (d_id d) "")) eqn:Hid; simpl.
    + slot_written Hd Hi.
      exists 0. by rewrite (or_else_truthy _ (generated_id (Date_now 0) i) Hid).
    + slot_written Hd Hi.
      exists (clock_reads st).
      by rewrite (or_else_falsy _ (generated_id (Date_now (clock_reads st)) i) Hid).
Qed.

(** The inner loop from index [i]: the fragment number [k] steps the slot
    [i + k], and no other slot changes. *)
Lemma mergeToolCalls_slots (ds : list DeltaToolCall) :
  ∀ (i : nat) (st : StreamState),
    dense (accumulatedToolCalls st) →
    i ≤ length (accumulatedToolCalls st) →
    let st' := mergeToolCalls Date_now i ds st in
    dense (accumulatedToolCalls st')
    ∧ length (accumulatedToolCalls st') = length (accumulatedToolCalls st) `max` (i + length ds)
    ∧ (∀ j, j < i ∨ i + length ds ≤ j →
            accumulatedToolCalls st' !! j = accumulatedToolCalls st !! j)
    ∧ (∀ k d, ds !! k = Some d →
              ∃ new, accumulatedToolCalls st' !! (i + k) = Some (Some new)
                     ∧ slot_step Date_now (i + k) (array_get (accumulatedToolCalls st) (i + k)) d new).
Proof.
  induction ds as [|d ds IH]; intros i st Hd Hi; cbv zeta; simpl.
  - split; [done|]. split; [lia|]. split; [done|]. intros k d' Hk. done.
  - destruct (mergeToolCall_slot i d st Hd Hi) as (Hd1 & Hlen1 & Hother1 & new & Hat1 & Hstep1).
    destruct (IH (S i) (mergeToolCall Date_now i d st) Hd1 ltac:(lia))
      as (Hd2 & Hlen2 & Hother2 & Hslots2).
    split; [exact Hd2|]. split; [lia|]. split.
    + intros j Hj. rewrite Hother2 by lia. apply Hother1. lia.
    + intros [|k] d' Hk; simpl in Hk.
      * injection Hk as <-. rewrite Nat.add_0_r.
        exists new. split; [|exact Hstep1]. rewrite Hother2 by lia. exact Hat1.
      * destruct (Hslots2 k d' Hk) as (new' & Hat2 & Hstep2).
        replace (i + S k) with (S i + k) by lia.
        exists new'. split; [exact Hat2|].
        unfold array_get in *. rewrite Hother1 in Hstep2 by lia. exact Hstep2.
Qed.

(** What a chunk does to the accumulator does not depend on the callback. *)
Lemma processChunk_accumulator (onChunk : Sink) (c : Chunk) (st st' : StreamState) :
  processChunk Date_now onChunk c st = Returned st' →
  ∃ st1, accumulatedToolCalls st1 = accumulatedToolCalls st
         ∧ st' = mergeToolCalls Date_now 0 (chunk_fragments c) st1.
Proof.
  unfold processChunk, chunk_fragments, chunk_delta.
  set (delta_ := delta <$> head (chunk_choices c)).
  destruct (delta_ ≫= d_content) as [text|]; simpl.
  - destruct (truthy text).
    + destruct (onChunk (forwarded st) text); simpl; [done|].
      intros [= <-]. eexists. split; [|by destruct (delta_ ≫= d_tool_calls)]. done.
    + intros [= <-]. exists st. split; [done|]. by destruct (delta_ ≫= d_tool_calls).
  - intros [= <-]. exists st. split; [done|]. by destruct (delta_ ≫= d_tool_calls).
Qed.

(** A chunk steps the slots its fragments stand at. *)
Lemma processChunk_slots (onChunk : Sink) (c : Chunk) (st st' : StreamState) :
  processChunk Date_now onChunk c st = Returned st' →
  dense (accumulatedToolCalls st) →
  dense (accumulatedToolCalls st')
  ∧ ∀ i, match chunk_fragments c !! i with
         | Some d =>
             ∃ new, accumulatedToolCalls st' !! i = Some (Some new)
                    ∧ slot_step Date_now i (array_get (accumulatedToolCalls st) i) d new
         | None => accumulatedToolCalls st' !! i = accumulatedToolCalls st !! i
         end.
Proof.
  intros Hrun Hd.
  destruct (processChunk_accumulator _ _ _ _ Hrun) as (st1 & Hacc & ->).
  rewrite <- Hacc in Hd |- *.
  destruct (mergeToolCalls_slots (chunk_fragments c) 0 st1 Hd ltac:(lia))
    as (Hd' & _ & Hother & Hslots).
  split; [exact Hd'|]. intros i.
  destruct (chunk_fragments c !! i) as [d|] eqn:Hi.
  - apply (Hslots i d Hi).
  - apply Hother. right. simpl. by apply lookup_ge_None.
Qed.

(** The chunks of a stream run every slot through the fragments of its
    position. *)
Lemma consumeChunks_slots (onChunk : Sink) (cs : list Chunk) :
  ∀ st st' : StreamState,
    consumeChunks Date_now onChunk cs st = Returned st' →
    dense (accumulatedToolCalls st) →
    dense (accumulatedToolCalls st')
    ∧ ∀ i, slot_run Date_now i (array_get (accumulatedToolCalls st) i)
             (fragments_at i cs) (array_get (accumulatedToolCalls st') i).
Proof.
  induction cs as [|c cs IH]; intros st st' Hrun Hd; simpl in Hrun.
  - injection Hrun as <-. split; [done|]. intros i. reflexivity.
  - destruct (processChunk Date_now onChunk c st) as [st1|e] eqn:Hc; [|done].
    simpl in Hrun.
    destruct (processChunk_slots _ _ _ _ Hc Hd) as (Hd1 & Hslots).
    destruct (IH st1 st' Hrun Hd1) as (Hd' & Hruns).
    split; [exact Hd'|]. intros i.
    specialize (Hslots i). specialize (Hruns i).
    unfold fragments_at in *. simpl.
    destruct (chunk_fragments c !! i) as [d|]; simpl.
    + destruct Hslots as (new & Hat & Hstep).
      exists new. split; [exact Hstep|].
      unfold array_get in Hruns at 1. rewrite Hat in Hruns. exact Hruns.
    + unfold array_get in *. rewrite Hslots in Hruns. exact Hruns.
Qed.

(** A slot that holds an entry keeps its id; the later fragments append
    their arguments and give a name only while there is none. *)
Lemma slot_run_entry (i : nat) (ds : list DeltaToolCall) :
  ∀ (entry : FunctionToolCall) (final : option FunctionToolCall),
    slot_run Date_now i (Some entry) ds final →
    ∃ tc, final = Some tc
          ∧ tc_id tc = tc_id entry
          ∧ fn_name (tc_function tc)
              = fold_left (fun name d => if truthy name then name else delta_name d) ds
                  (fn_name (tc_function entry))
          ∧ fn_arguments (tc_function tc)
              = fold_left (fun text d => text +:+ delta_arguments d) ds
                  (fn_arguments (tc_function entry)).
Proof.
  induction ds as [|d ds IH]; intros entry final Hrun; simpl in Hrun.
  - exists entry. by subst final.
  - destruct Hrun as (new & Hstep & Hrest). simpl in Hstep. subst new.
    destruct (IH _ _ Hrest) as (tc & -> & Hid & Hname & Hargs).
    exists tc. split; [done|]. simpl in *. by rewrite Hid, Hname, Hargs.
Qed.

Lemma dense_lookup_None {A} (a : list (option A)) (i : nat) :
  dense a → array_get a i = None → a !! i = None.
Proof. intros Hd Hget. apply lookup_ge_None. by apply array_get_dense. Qed.

End Accumulator.

Section Accumulated.

Variable Date_now : nat -> Z.

Lemma array_entries_dense {A} (a : list (option A)) :
  dense a → map Some (array_entries a) = a ∧ length (array_entries a) = length a.
Proof.
  induction 1 as [|x a [y ->] _ [IH1 IH2]]; [done|].
  change (array_entries (Some y :: a)) with (y :: array_entries a).
  simpl. by rewrite IH1, IH2.
Qed.

(** The slots of the accumulator after the chunks [cs]. *)
Lemma stream_slots (onChunk : Sink) (cs : list Chunk) (st : StreamState) :
  consumeChunks Date_now onChunk cs stream_start = Returned st →
  dense (accumulatedToolCalls st)
  ∧ ∀ i, match fragments_at i cs with
         | [] => accumulatedToolCalls st !! i = None
         | first :: later =>
             ∃ entry, accumulatedToolCalls st !! i = Some (Some entry)
                      ∧ (∃ k, tc_id entry = or_else (d_id first) (generated_id (Date_now k) i))
                      ∧ fn_name (tc_function entry) = merged_name first later
                      ∧ fn_arguments (tc_function entry) = merged_arguments first later
         end.
Proof.
  intros Hrun.
  destruct (consumeChunks_slots Date_now onChunk cs stream_start st Hrun) as (Hd & Hslots);
    [constructor|].
  split; [exact Hd|].
  intros i. specialize (Hslots i).
  replace (array_get (accumulatedToolCalls stream_start) i) with (@None FunctionToolCall)
    in Hslots by (by destruct i).
  destruct (fragments_at i cs) as [|first later]; simpl in Hslots.
  - by apply dense_lookup_None.
  - destruct Hslots as (new & (k & ->) & Hrest).
    destruct (slot_run_entry _ _ _ _ _ Hrest) as (tc & Hfinal & Hid & Hname & Hargs).
    apply array_get_Some in Hfinal as [Hfinal _].
    exists tc. split; [exact Hfinal|]. split; [by exists k|]. by split.
Qed.

(** The accumulator is empty exactly when no chunk carried a fragment. *)
Lemma accumulator_empty_iff (onChunk : Sink) (cs : list Chunk) (st : StreamState) :
  consumeChunks Date_now onChunk cs stream_start = Returned st →
  accumulatedToolCalls st = [] ↔ Forall (fun c => chunk_fragments c = []) cs.
Proof.
  intros Hrun. destruct (stream_slots onChunk cs st Hrun) as (_ & Hslots).
  specialize (Hslots 0).
  assert (Hfr : fragments_at 0 cs = [] ↔ Forall (fun c => chunk_fragments c = []) cs).
  { clear. unfold fragments_at. induction cs as [|c cs IH]; simpl.
    - split; [constructor | done].
    - destruct (chunk_fragments c) as [|d ds] eqn:Hc; simpl.
      + rewrite IH. split; [by constructor | by inversion 1].
      + split; [done | intros HF; inversion HF; congruence]. }
  rewrite <- Hfr. destruct (fragments_at 0 cs) as [|first later].
  - split; [done|]. intros _. by destruct (accumulatedToolCalls st).
  - destruct Hslots as (entry & Hat & _). split; [|done].
    intros Hnil. by rewrite Hnil in Hat.
Qed.


End Accumulated.

(** ** One turn *)

Section Turn.

Context {ToolDefinition : Type}.
Variable getToolDefinitions : Outcome (list ToolDefinition).
Variable executeTool : string -> JsValue -> Outcome JsValue.
Variable JSON_parse : string -> Outcome JsValue.
Variable JSON_stringify : JsValue -> option string.
Variable Date_now : nat -> Z.

(** A stream that raises never gets through the loop. *)
Lemma consumeStream_fault (onChunk : Sink) (stream : Stream) (e : Thrown) :
  fault stream = Some e → ∃ e', consumeStream Date_now onChunk stream = Threw e'.
Proof.
  intros Hf. unfold consumeStream.
  destruct (consumeChunks Date_now onChunk (chunks stream) stream_start) as [st|e']; simpl.
  - rewrite Hf. by eexists.
  - by eexists.
Qed.

(** C5. When the stream of the primary call raises an error, after any
    number of chunks, the turn is rejected with the error
    "Stream processing failed": no result is returned, whatever had been
    accumulated. *)
Theorem stream_fault_fails_turn {X} (this : @ChatHandler ToolDefinition) (message_ : string)
    (history : list (Message X)) (onChunk : Sink) (toolDefinitions : list ToolDefinition)
    (stream : Stream) (e : Thrown) :
  getToolDefinitions = Returned toolDefinitions →
  create_stream (client this)
    (primaryRequest this (buildConversationMessages message_ history) toolDefinitions true)
    = Returned stream →
  fault stream = Some e →
  processMessage getToolDefinitions executeTool JSON_parse JSON_stringify Date_now
    this message_ history (Some onChunk)
  = Threw (ThrownError "Stream processing failed").
Proof.
  intros Htools Hstream Hfault.
  unfold processMessage. rewrite Htools. simpl. rewrite Hstream. simpl.
  unfold handleStreamResponse.
  destruct (consumeStream_fault onChunk stream e Hfault) as (e' & ->).
  reflexivity.
Qed.

(** The streaming branch once the loop is through. *)
Lemma handleStreamResponse_consumed {X} (this : @ChatHandler ToolDefinition) (stream : Stream)
    (message_ : string) (history : list (Message X)) (onChunk : Sink) (st : StreamState) :
  consumeStream Date_now onChunk stream = Returned st →
  handleStreamResponse executeTool JSON_parse JSON_stringify Date_now this stream message_ history onChunk =
    if 0 <? length (accumulatedToolCalls st) then
      executedTools ← executeToolCalls executeTool JSON_parse
                        (array_entries (accumulatedToolCalls st));
      finalResponse ← generateToolResponse JSON_stringify this message_ history
                        (array_entries (accumulatedToolCalls st)) executedTools;
      Returned (mkTurnResult finalResponse (Some executedTools))
    else Returned (mkTurnResult (fullContent st) None).
Proof. intros Hrun. unfold handleStreamResponse. rewrite Hrun. reflexivity. Qed.

Lemma handleStreamResponse_returned {X} (this : @ChatHandler ToolDefinition) (stream : Stream)
    (message_ : string) (history : list (Message X)) (onChunk : Sink) (r : TurnResult) :
  handleStreamResponse executeTool JSON_parse JSON_stringify Date_now this stream message_ history onChunk
    = Returned r →
  ∃ st, consumeChunks Date_now onChunk (chunks stream) stream_start = Returned st
        ∧ consumeStream Date_now onChunk stream = Returned st.
Proof.
  unfold handleStreamResponse.
  destruct (consumeStream Date_now onChunk stream) as [st|e] eqn:Hrun; [|done].
  intros _. exists st. split; [|done].
  unfold consumeStream in Hrun.
  destruct (consumeChunks Date_now onChunk (chunks stream) stream_start) as [st'|]; [|done].
  simpl in Hrun. by destruct (fault stream); simplify_eq.
Qed.

Lemma some_fragment_iff (cs : list Chunk) :
  Exists (fun c => chunk_fragments c ≠ []) cs
  ↔ ¬ Forall (fun c => chunk_fragments c = []) cs.
Proof.
  induction cs as [|c cs IH].
  - split; [by inversion 1 | intros H; by destruct H].
  - rewrite Exists_cons, Forall_cons, IH.
    destruct (chunk_fragments c) as [|d ds]; [|split; [intros _ [? _]; done | by left]].
    split; [intros [?|?] [_ ?]; done | intros H; right; intros ?; by apply H].
Qed.

(** C6. A returned turn result has a non-empty [toolCalls] exactly when
    the model asked for a tool: in the blocking branch when the tool calls
    of the completion are not empty, in the streaming branch when some
    chunk carried a tool-call fragment.  When no tool was asked for,
    [toolCalls] is left out or empty. *)
Theorem toolCalls_iff_requested {X} (this : @ChatHandler ToolDefinition) (message_ : string)
    (history : list (Message X)) :
  (∀ completion r,
      handleNonStreamResponse executeTool JSON_parse JSON_stringify this completion message_ history
        = Returned r →
      ((∃ l, toolCalls r = Some l ∧ l ≠ []) ↔ completion_tool_calls completion ≠ [])
      ∧ (completion_tool_calls completion = [] →
         toolCalls r = None ∨ toolCalls r = Some []))
  ∧ (∀ stream onChunk r,
      handleStreamResponse executeTool JSON_parse JSON_stringify Date_now this stream message_ history onChunk
        = Returned r →
      ((∃ l, toolCalls r = Some l ∧ l ≠ [])
       ↔ Exists (fun c => chunk_fragments c ≠ []) (chunks stream))
      ∧ (Forall (fun c => chunk_fragments c = []) (chunks stream) → toolCalls r = None)).
Proof.
  split.
  - intros completion r. unfold handleNonStreamResponse, completion_tool_calls.
    destruct (head (choices completion) ≫= message) as [responseMessage|]; simpl.
    2:{ intros [= <-]. simpl. split; [|by left].
        split; [by intros (l & ? & _) | done]. }
    destruct (rm_tool_calls responseMessage) as [tool_calls|]; simpl.
    2:{ intros [= <-]. simpl. split; [|by left].
        split; [by intros (l & ? & _) | done]. }
    destruct (executeToolCalls_returns executeTool JSON_parse tool_calls)
      as (results & -> & Hall). simpl.
    destruct (generateToolResponse JSON_stringify this message_ history tool_calls results); [|done].
    simpl. intros [= <-]. simpl.
    apply Forall2_length in Hall.
    split.
    + split.
      * intros (l & [= <-] & Hne) ->. by destruct results.
      * intros Hne. exists results. split; [done|]. intros ->. by destruct tool_calls.
    + intros ->. right. by destruct results.
  - intros stream onChunk r Hret.
    destruct (handleStreamResponse_returned _ _ _ _ _ _ Hret) as (st & Hchunks & Hrun).
    rewrite (handleStreamResponse_consumed _ _ _ _ _ _ Hrun) in Hret.
    destruct (stream_slots Date_now _ _ _ Hchunks) as (Hd & _).
    pose proof (accumulator_empty_iff Date_now _ _ _ Hchunks) as Hempty.
    destruct (array_entries_dense _ Hd) as (_ & Hlen).
    rewrite some_fragment_iff.
    destruct (accumulatedToolCalls st) as [|slot slots] eqn:Hacc.
    + simpl in Hret. injection Hret as <-. simpl.
      destruct Hempty as [Hempty _]. specialize (Hempty eq_refl).
      split; [|done]. split; [by intros (l & ? & _) | done].
    + change (0 <? length (slot :: slots)) with true in Hret. cbv iota in Hret.
      destruct (executeToolCalls_returns executeTool JSON_parse (array_entries (slot :: slots)))
        as (results & Hres & Hall).
      rewrite Hres in Hret. simpl in Hret.
      destruct (generateToolResponse JSON_stringify this message_ history _ results); [|done].
      simpl in Hret. injection Hret as <-. simpl.
      apply Forall2_length in Hall. rewrite Hlen in Hall. simpl in Hall.
      split.
      * split; [|intros _; exists results; split; [done | by destruct results]].
        intros _ HF. by apply Hempty in HF.
      * intros HF. by apply Hempty in HF.
Qed.

(** A stream of text only, with a callback that never throws: the loop
    ends with the text of the chunks and an empty accumulator. *)
Lemma consumeChunks_text (onChunk : Sink) (cs : list Chunk) :
  never_throws onChunk →
  Forall (fun c => chunk_fragments c = []) cs →
  ∀ st, ∃ st',
    consumeChunks Date_now onChunk cs st = Returned st'
    ∧ fullContent st' = fullContent st +:+ stream_text cs
    ∧ accumulatedToolCalls st' = accumulatedToolCalls st.
Proof.
  intros Hquiet. induction 1 as [|c cs Hc _ IH]; intros st; simpl.
  - exists st. by rewrite append_empty_r.
  - assert (∃ st1, processChunk Date_now onChunk c st = Returned st1
                   ∧ fullContent st1 = fullContent st +:+ chunk_content c
                   ∧ accumulatedToolCalls st1 = accumulatedToolCalls st)
      as (st1 & Hst1 & Hfull & Hacc).
    { unfold processChunk, chunk_content, chunk_fragments, chunk_delta in *.
      set (delta_ := delta <$> head (chunk_choices c)) in *.
      generalize dependent (delta_ ≫= d_tool_calls). intros tool_calls Htc.
      generalize (delta_ ≫= d_content). intros text.
      assert (Hds : tool_calls = None ∨ tool_calls = Some []).
      { destruct tool_calls as [ds|]; [|by left]. simpl in Htc. subst ds. by right. }
      clear Htc.
      destruct text as [text|]; simpl.
      - destruct (truthy text) eqn:Htext.
        + rewrite Hquiet. simpl. eexists.
          split; [by destruct Hds as [-> | ->]|]. by destruct Hds as [-> | ->].
        + apply truthy_false in Htext. subst text.
          exists st. rewrite append_empty_r. by destruct Hds as [-> | ->].
      - exists st. rewrite append_empty_r. by destruct Hds as [-> | ->]. }
    rewrite Hst1. simpl. destruct (IH st1) as (st' & Hrun & Hfull' & Hacc').
    exists st'. split; [done|]. rewrite Hfull', Hfull, Hacc', Hacc.
    by rewrite append_assoc.
Qed.

(** C8, amended.  Let the completion carry a non-empty text and no
    [tool_calls] field, and let the stream deliver that text in chunks
    without tool-call fragments and end without fault, the callback never
    throwing.  Then the streaming turn and the blocking turn both return,
    with that text as content. *)
Theorem streaming_and_blocking_agree {X} (this : @ChatHandler ToolDefinition)
    (message_ : string) (history : list (Message X)) (onChunk : Sink)
    (toolDefinitions : list ToolDefinition) (stream : Stream) (completion : ChatCompletion)
    (text : string) :
  getToolDefinitions = Returned toolDefinitions →
  create_stream (client this)
    (primaryRequest this (buildConversationMessages message_ history) toolDefinitions true)
    = Returned stream →
  create (client this)
    (primaryRequest this (buildConversationMessages message_ history) toolDefinitions false)
    = Returned completion →
  head (choices completion) ≫= message = Some (mkResponseMessage (Some text) None) →
  text ≠ "" →
  Forall (fun c => chunk_fragments c = []) (chunks stream) →
  stream_text (chunks stream) = text →
  fault stream = None →
  never_throws onChunk →
  ∃ streamed blocked,
    processMessage getToolDefinitions executeTool JSON_parse JSON_stringify Date_now
      this message_ history (Some onChunk) = Returned streamed
    ∧ processMessage getToolDefinitions executeTool JSON_parse JSON_stringify Date_now
        this message_ history None = Returned blocked
    ∧ content streamed = content blocked
    ∧ content blocked = text.
Proof.
  intros Htools Hstream Hcompletion Hmessage Htext Hfragments Hchunks Hfault Hquiet.
  destruct (consumeChunks_text onChunk (chunks stream) Hquiet Hfragments stream_start)
    as (st & Hrun & Hfull & Hacc).
  exists (mkTurnResult text None), (mkTurnResult text None).
  split; [|split; [|done]].
  - unfold processMessage. rewrite Htools. simpl. rewrite Hstream. simpl.
    rewrite (handleStreamResponse_consumed _ _ _ _ _ st).
    + rewrite Hacc. simpl. by rewrite Hfull, Hchunks.
    + unfold consumeStream. rewrite Hrun. simpl. by rewrite Hfault.
  - unfold processMessage. rewrite Htools. simpl. rewrite Hcompletion. simpl.
    unfold handleNonStreamResponse. rewrite Hmessage. simpl.
    by destruct text.
Qed.

(** The blocking branch on a completion without a [tool_calls] field: the
    text of the completion, or a fixed text when there is none. *)
Lemma handleNonStreamResponse_no_tool_calls_field {X} (this : @ChatHandler ToolDefinition)
    (completion : ChatCompletion) (message_ : string) (history : list (Message X)) :
  (head (choices completion) ≫= message) ≫= rm_tool_calls = None →
  ∃ text,
    handleNonStreamResponse executeTool JSON_parse JSON_stringify this completion message_ history
      = Returned (mkTurnResult text None)
    ∧ (truthy (or_else (completion_content completion) "") = true →
       text = or_else (completion_content completion) "")
    ∧ (truthy (or_else (completion_content completion) "") = false →
       text = "I apologize, but I encountered an issue processing your request."
       ∨ text = "I apologize, but I encountered an issue.").
Proof.
  unfold handleNonStreamResponse, completion_content.
  destruct (head (choices completion) ≫= message) as [responseMessage|]; simpl.
  - intros ->. eexists. split; [done|].
    split; intros Hc.
    + by apply or_else_truthy.
    + right. by apply or_else_falsy.
  - intros _. eexists. split; [done|]. split; [done|]. by left.
Qed.




(** The tool round once the tools have settled. *)
Lemma tool_round {X} (this : @ChatHandler ToolDefinition) (message_ : string)
    (history : list (Message X)) (requests : list FunctionToolCall)
    (executed : list ToolCall) :
  (finalResponse ← generateToolResponse JSON_stringify this message_ history requests executed;
   Returned (mkTurnResult finalResponse (Some executed)))
  = (followUp ← create (client this)
                  (followUpRequest JSON_stringify this message_ history requests executed);
     Returned (mkTurnResult
                 (or_else (completion_content followUp)
                    "Tool results processed successfully.")
                 (Some executed))).
Proof.
  unfold generateToolResponse.
  by destruct (create (client this) (followUpRequest JSON_stringify this message_ history requests executed)).
Qed.


(** The blocking branch on a completion whose [tool_calls] is the empty
    list: the tool round runs on no request, and the follow-up call is
    made. *)
Lemma handleNonStreamResponse_empty_tool_calls {X} (this : @ChatHandler ToolDefinition)
    (completion : ChatCompletion) (responseMessage : ResponseMessage) (message_ : string)
    (history : list (Message X)) :
  head (choices completion) ≫= message = Some responseMessage →
  rm_tool_calls responseMessage = Some [] →
  handleNonStreamResponse executeTool JSON_parse JSON_stringify this completion message_ history
  = (followUp ← create (client this) (followUpRequest JSON_stringify this message_ history [] []);
     Returned (mkTurnResult
                 (or_else (completion_content followUp) "Tool results processed successfully.")
                 (Some []))).
Proof.
  intros Hmessage Hcalls. unfold handleNonStreamResponse. rewrite Hmessage, Hcalls.
  apply (tool_round this message_ history [] []).
Qed.

End Turn.

(** ** Determinism of the Prompt Builder *)

(** C9. The Prompt Builder is a function of the text of the message and of
    the roles and contents of the history alone: two calls that agree on
    these return the same list, whatever else the stored messages hold
    (time stamps, ids) and whatever the handler and the clock are. *)
Theorem buildConversationMessages_deterministic {X Y} (message1 message2 : string)
    (history1 : list (Message X)) (history2 : list (Message Y)) :
  message1 = message2 →
  map (fun m => (m_role m, m_content m)) history1
    = map (fun m => (m_role m, m_content m)) history2 →
  buildConversationMessages message1 history1 = buildConversationMessages message2 history2.
Proof.
  intros -> Hhistory. unfold buildConversationMessages. do 2 f_equal.
  transitivity (map (fun p : Role * option string => role_content (fst p) (snd p))
                  (map (fun m => (m_role m, m_content m)) history1)).
  - by rewrite map_map.
  - rewrite Hhistory. by rewrite map_map.
Qed.

(** ** The blocking branch on an empty list of tool calls *)

(** C7, at a completion without content whose [tool_calls] is the empty
    list: the handler runs the tool round on no request and makes the
    follow-up call.  When that call is refused the turn is rejected, and
    when it answers, the content of the turn is that answer, not the
    fallback text of the blocking branch. *)
Theorem empty_tool_calls_start_the_tool_round :
  Script.run
    (Script.handler (Returned (Script.reply None (Some [])))
       (Threw (ThrownError "not streaming"))
       (Threw (ThrownError "400 Invalid 'messages[2].tool_calls': empty array.")))
    "Hello" Script.greeting None
  = Threw (ThrownError "400 Invalid 'messages[2].tool_calls': empty array.")
  ∧ Script.run
      (Script.handler (Returned (Script.reply None (Some [])))
         (Threw (ThrownError "not streaming"))
         (Returned (Script.reply (Some "How can I help?") None)))
      "Hello" Script.greeting None
    = Returned (mkTurnResult "How can I help?" (Some [])).
Proof. split; reflexivity. Qed.

(** ** Runs of the scripted environment *)


Lemma executeToolCalls_one_per_request_run :
  ∃ results,
    executeToolCalls Script.executeTool Json.parse
      [Script.echo_request; Script.crash_request;
       mkFunctionToolCall "call_fax" (mkFunctionCall "fax" "")] = Returned results
    ∧ length results = 3
    ∧ map call_id results = ["call_echo"; "call_crash"; "call_fax"]
    ∧ (∃ t, results !! 2 = Some t
            ∧ call_id t = "call_fax"
            ∧ call_result t
              = JObj [("error", JStr "Failed to execute fax: Unknown tool: fax")])
    ∧ (∃ t, results !! 1 = Some t
            ∧ call_id t = "call_crash"
            ∧ call_result t = JObj [("error", JStr "Failed to execute crash: Unknown error")])
    ∧ results !! 0
      = Some (mkToolCall "call_echo" "echo" (JObj [("v", JNum 1)]) (JObj [("v", JNum 1)])).
Proof.
  destruct (executeToolCalls_one_per_request Script.executeTool Json.parse
              [Script.echo_request; Script.crash_request;
               mkFunctionToolCall "call_fax" (mkFunctionCall "fax" "")])
    as (results & Hres & Hlen & Hids & Herror & Hvalue & Hok).
  exists results. split; [exact Hres|]. split; [exact Hlen|]. split; [exact Hids|].
  split; [|split].
  - exact (Herror 2 (mkFunctionToolCall "call_fax" (mkFunctionCall "fax" "")) (JObj [])
             "Unknown tool: fax" eq_refl eq_refl eq_refl).
  - exact (Hvalue 1 Script.crash_request (JObj []) (JStr "disk full")
             eq_refl eq_refl eq_refl).
  - exact (Hok 0 Script.echo_request (JObj [("v", JNum 1)]) (JObj [("v", JNum 1)])
             eq_refl eq_refl eq_refl).
Defined.

(** C2 as stated fails when what the executor throws is not an [Error]:
    the tool [crash] throws the text "disk full", and the entry of its
    request names the tool but says "Unknown error", not that text. *)
Lemma thrown_value_is_not_described :
  Script.executeTool "crash" (JObj []) = Threw (ThrownValue (JStr "disk full"))
  ∧ executeToolCalls Script.executeTool Json.parse [Script.crash_request]
    = Returned [mkToolCall "call_crash" "crash" (JObj [])
                  (JObj [("error", JStr "Failed to execute crash: Unknown error")])]
  ∧ HomePage.includes "Failed to execute crash: Unknown error" "crash" = true
  ∧ HomePage.includes "Failed to execute crash: Unknown error" "disk full" = false.
Proof.
  repeat split; reflexivity.
Qed.


Lemma buildConversationMessages_shape_run :
  let out := buildConversationMessages "My last job was at a bank." Script.greeting in
  length out = 4
  ∧ (∃ instructions,
        out !! 0 = Some (mkChatMessage system (Some instructions) None None)
        ∧ String.length instructions = 3065
        ∧ String.prefix ("You are " +:+ q "AuraHire" +:+ ", a professional") instructions = true)
  ∧ out !! 1 = Some (mkChatMessage assistant (Some "Welcome to AuraHire.") None None)
  ∧ out !! 2 = Some (mkChatMessage user (Some "I've selected the Office Staff role.") None None)
  ∧ out !! 3 = Some (mkChatMessage user (Some "My last job was at a bank.") None None)
  ∧ last out = Some (mkChatMessage user (Some "My last job was at a bank.") None None).
Proof.
  destruct (buildConversationMessages_shape "My last job was at a bank." Script.greeting)
    as (Hlen & Hfirst & _ & Hmiddle & Hlatest & Hlast).
  split; [exact Hlen|].
  split; [exists systemPrompt; split; [exact Hfirst|]; split; vm_compute; reflexivity|].
  split; [exact (Hmiddle 0 _ eq_refl)|].
  split; [exact (Hmiddle 1 _ eq_refl)|].
  split; [exact Hlatest | exact Hlast].
Defined.

Lemma buildConversationMessages_deterministic_run :
  buildConversationMessages "My last job was at a bank." Script.greeting
  = buildConversationMessages "My last job was at a bank." Script.greeting_later.
Proof.
  exact (buildConversationMessages_deterministic _ _ Script.greeting Script.greeting_later
           eq_refl eq_refl).
Defined.

Lemma stream_fault_fails_turn_run :
  Script.run
    (Script.handler (Threw (ThrownError "not blocking"))
       (Returned (mkStream Script.question1_chunks (Some (ThrownError "connection reset"))))
       (Threw (ThrownError "no follow-up")))
    "I've selected the Office Staff role." Script.greeting (Some Script.quiet)
  = Threw (ThrownError "Stream processing failed").
Proof.
  exact (stream_fault_fails_turn Script.getToolDefinitions Script.executeTool Json.parse Json.stringify
           Script.Date_now
           (Script.handler (Threw (ThrownError "not blocking"))
              (Returned (mkStream Script.question1_chunks (Some (ThrownError "connection reset"))))
              (Threw (ThrownError "no follow-up")))
           "I've selected the Office Staff role." Script.greeting Script.quiet
           ["echo"; "lookup"; "crash"]
           (mkStream Script.question1_chunks (Some (ThrownError "connection reset")))
           (ThrownError "connection reset")
           eq_refl eq_refl eq_refl).
Defined.

Lemma toolCalls_iff_requested_run :
  (∃ r l, handleNonStreamResponse Script.executeTool Json.parse Json.stringify
            (Script.handler (Threw (ThrownError "unused")) (Threw (ThrownError "unused"))
               (Returned (Script.reply (Some "It said 1.") None)))
            (Script.reply None (Some [Script.echo_request])) "Echo 1" Script.greeting
          = Returned r
          ∧ toolCalls r = Some l ∧ l ≠ [])
  ∧ (∃ r, handleStreamResponse Script.executeTool Json.parse Json.stringify Script.Date_now
            (Script.handler (Threw (ThrownError "unused")) (Threw (ThrownError "unused"))
               (Threw (ThrownError "unused")))
            (mkStream Script.question1_chunks None) "Hello" Script.greeting Script.quiet
          = Returned r
          ∧ toolCalls r = None).
Proof.
  split.
  - eexists.
    destruct (toolCalls_iff_requested Script.executeTool Json.parse Json.stringify Script.Date_now
                (Script.handler (Threw (ThrownError "unused")) (Threw (ThrownError "unused"))
                   (Returned (Script.reply (Some "It said 1.") None)))
                "Echo 1" Script.greeting) as (Hblocking & _).
    destruct (Hblocking (Script.reply None (Some [Script.echo_request])) _ eq_refl)
      as ((_ & Hsome) & _).
    destruct (Hsome ltac:(discriminate)) as (l & Hl & Hne).
    exists l. split; [reflexivity|]. split; [exact Hl | exact Hne].
  - eexists.
    destruct (toolCalls_iff_requested Script.executeTool Json.parse Json.stringify Script.Date_now
                (Script.handler (Threw (ThrownError "unused")) (Threw (ThrownError "unused"))
                   (Threw (ThrownError "unused")))
                "Hello" Script.greeting) as (_ & Hstreaming).
    destruct (Hstreaming (mkStream Script.question1_chunks None) Script.quiet _ eq_refl)
      as (_ & Hnone).
    split; [reflexivity|].
    apply Hnone. repeat constructor.
Defined.

Lemma streaming_and_blocking_agree_run :
  ∃ streamed blocked,
    Script.run
      (Script.handler (Returned (Script.reply (Some Script.question1) None))
         (Returned (mkStream Script.question1_chunks None))
         (Threw (ThrownError "no follow-up")))
      "I've selected the Office Staff role." Script.greeting (Some Script.quiet)
    = Returned streamed
    ∧ Script.run
        (Script.handler (Returned (Script.reply (Some Script.question1) None))
           (Returned (mkStream Script.question1_chunks None))
           (Threw (ThrownError "no follow-up")))
        "I've selected the Office Staff role." Script.greeting None
      = Returned blocked
    ∧ content streamed = content blocked
    ∧ content blocked = Script.question1.
Proof.
  apply (streaming_and_blocking_agree Script.getToolDefinitions Script.executeTool Json.parse Json.stringify
           Script.Date_now
           (Script.handler (Returned (Script.reply (Some Script.question1) None))
              (Returned (mkStream Script.question1_chunks None))
              (Threw (ThrownError "no follow-up")))
           "I've selected the Office Staff role." Script.greeting Script.quiet
           ["echo"; "lookup"; "crash"] (mkStream Script.question1_chunks None)
           (Script.reply (Some Script.question1) None) Script.question1).
  - reflexivity.
  - reflexivity.
  - reflexivity.
  - reflexivity.
  - discriminate.
  - repeat constructor.
  - reflexivity.
  - reflexivity.
  - intros before text. reflexivity.
Defined.


(** C8 as stated fails for the empty text: delivered as one chunk the
    streaming turn returns it, the blocking turn returns its fallback
    text. *)
Lemma streaming_and_blocking_differ_on_empty_text :
  ∃ streamed blocked,
    Script.run
      (Script.handler (Returned (Script.reply (Some "") None))
         (Returned (mkStream [Script.content_chunk ""] None))
         (Threw (ThrownError "no follow-up")))
      "Hello" Script.greeting (Some Script.quiet)
    = Returned streamed
    ∧ Script.run
        (Script.handler (Returned (Script.reply (Some "") None))
           (Returned (mkStream [Script.content_chunk ""] None))
           (Threw (ThrownError "no follow-up")))
        "Hello" Script.greeting None
      = Returned blocked
    ∧ content streamed = ""
    ∧ content blocked = "I apologize, but I encountered an issue."
    ∧ content streamed ≠ content blocked.
Proof.
  eexists. eexists.
  split; [reflexivity|]. split; [reflexivity|].
  split; [reflexivity|]. split; [reflexivity|]. discriminate.
Qed.

(** The slot a fragment goes to is its position in [delta.tool_calls]; the
    index the endpoint gave it is not read. *)
Lemma mergeToolCall_ignores_d_index (Date_now : nat -> Z) (i k : nat) (d : DeltaToolCall)
    (st : StreamState) :
  mergeToolCall Date_now i (mkDeltaToolCall k (d_id d) (d_function d)) st
  = mergeToolCall Date_now i d st.
Proof. by destruct d. Qed.

(** A callback that throws rejects the turn like a fault of the stream. *)
Lemma throwing_callback_fails_turn :
  Script.run
    (Script.handler (Threw (ThrownError "not blocking"))
       (Returned (mkStream Script.question1_chunks None))
       (Threw (ThrownError "no follow-up")))
    "I've selected the Office Staff role." Script.greeting (Some Script.fragile)
  = Threw (ThrownError "Stream processing failed").
Proof. reflexivity. Qed.

(** * Further properties of the handler *)

(** ** What the callback is handed *)

Section Forwarding.

Variable Date_now : nat -> Z.

Lemma mergeToolCalls_keeps_content (ds : list DeltaToolCall) :
  ∀ (i : nat) (st : StreamState),
    fullContent (mergeToolCalls Date_now i ds st) = fullContent st
    ∧ forwarded (mergeToolCalls Date_now i ds st) = forwarded st.
Proof.
  induction ds as [|d ds IH]; intros i st; simpl; [done|].
  destruct (IH (S i) (mergeToolCall Date_now i d st)) as [-> ->].
  unfold mergeToolCall.
  destruct (array_get (accumulatedToolCalls st) i); [done|].
  by destruct (truthy (or_else (d_id d) "")).
Qed.

(** One chunk: an empty content is skipped, any other is handed to the
    callback, whose error ends the loop. *)
Lemma processChunk_content (onChunk : Sink) (c : Chunk) (st : StreamState) :
  (truthy (chunk_content c) = false →
     ∃ st', processChunk Date_now onChunk c st = Returned st'
            ∧ forwarded st' = forwarded st ∧ fullContent st' = fullContent st)
  ∧ (truthy (chunk_content c) = true →
       match onChunk (forwarded st) (chunk_content c) with
       | Some e => processChunk Date_now onChunk c st = Threw e
       | None =>
           ∃ st', processChunk Date_now onChunk c st = Returned st'
                  ∧ forwarded st' = forwarded st ++ [chunk_content c]
                  ∧ fullContent st' = fullContent st +:+ chunk_content c
       end).
Proof.
  unfold processChunk, chunk_content, chunk_delta.
  set (delta_ := delta <$> head (chunk_choices c)).
  generalize (delta_ ≫= d_tool_calls). intros tool_calls.
  generalize (delta_ ≫= d_content). intros text.
  assert (Hkeep : ∀ s, forwarded (match tool_calls with
                                  | Some ds => mergeToolCalls Date_now 0 ds s
                                  | None => s
                                  end) = forwarded s
                       ∧ fullContent (match tool_calls with
                                      | Some ds => mergeToolCalls Date_now 0 ds s
                                      | None => s
                                      end) = fullContent s).
  { intros s. destruct tool_calls as [ds|]; [|done].
    by destruct (mergeToolCalls_keeps_content ds 0 s) as [-> ->]. }
  destruct text as [text|]; simpl.
  - destruct (truthy text) eqn:Htext; simpl.
    + split; [by rewrite Htext|]. intros _.
      destruct (onChunk (forwarded st) text) as [e|]; simpl; [done|].
      eexists. split; [done|]. apply Hkeep.
    + split; [|done]. intros _. eexists. split; [done|]. apply Hkeep.
  - split; [|done]. intros _. eexists. split; [done|]. apply Hkeep.
Qed.

(** The loop returns when the callback takes every fragment, and ends
    with the first error of the callback otherwise. *)
Lemma consumeChunks_forwarded (onChunk : Sink) (cs : list Chunk) :
  ∀ st : StreamState,
    match first_refusal onChunk (forwarded st) (forwarded_fragments cs) with
    | Some e => consumeChunks Date_now onChunk cs st = Threw e
    | None =>
        ∃ st', consumeChunks Date_now onChunk cs st = Returned st'
               ∧ forwarded st' = forwarded st ++ forwarded_fragments cs
               ∧ fullContent st' = fullContent st +:+ text_of (forwarded_fragments cs)
    end.
Proof.
  induction cs as [|c cs IH]; intros st; simpl.
  - exists st. by rewrite app_nil_r, append_empty_r.
  - destruct (processChunk_content onChunk c st) as [Hskip Htake].
    unfold forwarded_fragments in *. simpl.
    destruct (truthy (chunk_content c)) eqn:Hc; simpl.
    + specialize (Htake eq_refl).
      destruct (onChunk (forwarded st) (chunk_content c)) as [e|].
      * by rewrite Htake.
      * destruct Htake as (st1 & -> & Hf & Hfull). simpl.
        specialize (IH st1). rewrite Hf in IH.
        destruct (first_refusal onChunk _ _) as [e|]; [done|].
        destruct IH as (st' & -> & Hf' & Hfull').
        exists st'. split; [done|].
        rewrite Hf', Hfull', Hfull, <- app_assoc. split; [done|].
        by rewrite append_assoc.
    + destruct (Hskip eq_refl) as (st1 & -> & Hf & Hfull). simpl.
      specialize (IH st1). rewrite Hf in IH.
      destruct (first_refusal onChunk _ _) as [e|]; [done|].
      destruct IH as (st' & -> & Hf' & Hfull').
      exists st'. by rewrite Hf', Hfull', Hfull.
Qed.

End Forwarding.

(** ** The size of the accumulator *)

Section Slots.

Variable Date_now : nat -> Z.

Lemma fragments_at_nil_iff (i : nat) (cs : list Chunk) :
  fragments_at i cs = [] ↔ max_list (map (fun c => length (chunk_fragments c)) cs) ≤ i.
Proof.
  unfold fragments_at. induction cs as [|c cs IH]; simpl; [split; [lia | done]|].
  destruct (chunk_fragments c !! i) as [d|] eqn:Hc; simpl.
  - apply lookup_lt_Some in Hc. split; [done | lia].
  - apply lookup_ge_None in Hc. rewrite IH. lia.
Qed.

Lemma accumulator_length (onChunk : Sink) (cs : list Chunk) (st : StreamState) :
  consumeChunks Date_now onChunk cs stream_start = Returned st →
  length (accumulatedToolCalls st) = max_list (map (fun c => length (chunk_fragments c)) cs).
Proof.
  intros Hrun. destruct (stream_slots Date_now onChunk cs st Hrun) as (Hd & Hslots).
  set (M := max_list (map (fun c => length (chunk_fragments c)) cs)).
  apply Nat.le_antisymm.
  - apply lookup_ge_None. specialize (Hslots M).
    destruct (fragments_at M cs) as [|first later] eqn:HM; [done|].
    assert (fragments_at M cs = []) as Hnil by (apply fragments_at_nil_iff; done).
    congruence.
  - apply fragments_at_nil_iff. specialize (Hslots (length (accumulatedToolCalls st))).
    destruct (fragments_at (length (accumulatedToolCalls st)) cs) as [|first later]; [done|].
    destruct Hslots as (entry & Hat & _).
    apply lookup_lt_Some in Hat. lia.
Qed.

Lemma fragments_at_single (cs : list Chunk) :
  Forall (fun c => length (chunk_fragments c) ≤ 1) cs →
  fragments_at 0 cs = concat (map chunk_fragments cs).
Proof.
  unfold fragments_at. induction 1 as [|c cs Hc _ IH]; simpl; [done|].
  rewrite <- IH. destruct (chunk_fragments c) as [|d [|d' ds]]; simpl in *; [done | done | lia].
Qed.

Lemma pretty_N_char_no_underscore (n : N) : Ascii.eqb "_" (pretty_N_char n) = false.
Proof.
  unfold pretty_N_char. destruct n as [|p]; [done|].
  do 4 (destruct p as [p|p|]; try done).
Qed.

Lemma pretty_N_go_no_underscore (x : N) :
  ∀ s, occurs "_" s = false → occurs "_" (pretty_N_go x s) = false.
Proof.
  induction (N.lt_wf_0 x) as [x _ IH]; intros s Hs.
  assert (x = 0 ∨ 0 < x)%N as [->|Hx] by lia; [by rewrite pretty_N_go_0|].
  rewrite pretty_N_go_step by done. apply IH; [by apply N.div_lt|].
  cbn [occurs]. by rewrite pretty_N_char_no_underscore.
Qed.

Lemma pretty_N_no_underscore (x : N) : occurs "_" (pretty x) = false.
Proof.
  unfold pretty, pretty_N. case_decide; [done|]. by apply pretty_N_go_no_underscore.
Qed.

Lemma pretty_Z_no_underscore (z : Z) : occurs "_" (pretty z) = false.
Proof.
  destruct z as [|p|p]; [done | apply (pretty_N_no_underscore (Npos p)) |].
  unfold pretty at 1, pretty_Z.
  change ("-" +:+ pretty p) with (String "-" (pretty p)). cbn [occurs].
  change (Ascii.eqb "_" "-") with false. cbv iota. apply (pretty_N_no_underscore (Npos p)).
Qed.

(** Two texts cut at their first underscore. *)
Lemma split_at_underscore (a : string) :
  ∀ b x y, occurs "_" a = false → occurs "_" b = false →
           a +:+ "_" +:+ x = b +:+ "_" +:+ y → x = y.
Proof.
  induction a as [|c a IH]; intros [|c' b] x y Ha Hb Heq.
  - by injection Heq.
  - injection Heq as <- _. cbn in Hb. done.
  - injection Heq as -> _. cbn in Ha. done.
  - injection Heq as -> Heq. cbn [occurs] in Ha, Hb.
    destruct (Ascii.eqb "_" c'); [done|]. by apply (IH b).
Qed.

(** The generated ids of two different positions differ, whatever the
    clock says. *)
Lemma generated_id_no_clash (now1 now2 : Z) (i j : nat) :
  generated_id now1 i = generated_id now2 j → i = j.
Proof.
  unfold generated_id. intros Heq.
  apply (inj (String.append "tool_")) in Heq.
  apply split_at_underscore in Heq; [|apply pretty_Z_no_underscore..].
  by apply (inj pretty) in Heq.
Qed.

End Slots.

(** ** Turns *)

Section Further.

Context {ToolDefinition : Type}.
Variable getToolDefinitions : Outcome (list ToolDefinition).
Variable executeTool : string -> JsValue -> Outcome JsValue.
Variable JSON_parse : string -> Outcome JsValue.
Variable JSON_stringify : JsValue -> option string.
Variable Date_now : nat -> Z.

(** X1. In a streaming turn that returns, the callback has been handed
    exactly the content fragments that are not empty, in the order of
    arrival, and the accumulated content is their concatenation; when no
    chunk carried a tool-call fragment, the result is that content, without
    tool calls, whatever the handler and the registry are. *)
Theorem streamed_content_is_what_was_forwarded {X} (this : @ChatHandler ToolDefinition)
    (stream : Stream) (message_ : string) (history : list (Message X)) (onChunk : Sink)
    (r : TurnResult) :
  handleStreamResponse executeTool JSON_parse JSON_stringify Date_now this stream message_ history onChunk
    = Returned r →
  ∃ st,
    consumeStream Date_now onChunk stream = Returned st
    ∧ forwarded st = forwarded_fragments (chunks stream)
    ∧ fullContent st = text_of (forwarded st)
    ∧ (Forall (fun c => chunk_fragments c = []) (chunks stream) →
       r = mkTurnResult (text_of (forwarded st)) None).
Proof.
  intros Hret.
  destruct (handleStreamResponse_returned _ _ _ _ _ _ _ _ _ _ Hret) as (st & Hchunks & Hrun).
  exists st. split; [exact Hrun|].
  pose proof (consumeChunks_forwarded Date_now onChunk (chunks stream) stream_start) as Hfwd.
  destruct (first_refusal onChunk _ _) as [e|]; [congruence|].
  destruct Hfwd as (st' & Hst' & Hf & Hfull).
  assert (st' = st) as -> by congruence. simpl in Hf, Hfull.
  split; [exact Hf|]. split; [by rewrite Hfull, Hf|].
  intros Hnone.
  rewrite (handleStreamResponse_consumed _ _ _ _ _ _ _ _ _ _ Hrun) in Hret.
  apply (accumulator_empty_iff Date_now _ _ _ Hchunks) in Hnone.
  rewrite Hnone in Hret. simpl in Hret. injection Hret as <-.
  by rewrite Hfull, Hf.
Qed.

(** X2. When the callback throws on one of the fragments it is handed, the
    turn is rejected with the error "Stream processing failed", whatever
    the callback threw and whatever the stream held. *)
Theorem callback_error_fails_turn {X} (this : @ChatHandler ToolDefinition)
    (stream : Stream) (message_ : string) (history : list (Message X)) (onChunk : Sink)
    (e : Thrown) :
  first_refusal onChunk [] (forwarded_fragments (chunks stream)) = Some e →
  handleStreamResponse executeTool JSON_parse JSON_stringify Date_now this stream message_ history onChunk
  = Threw (ThrownError "Stream processing failed").
Proof.
  intros Hrefusal.
  pose proof (consumeChunks_forwarded Date_now onChunk (chunks stream) stream_start) as Hfwd.
  simpl in Hfwd. rewrite Hrefusal in Hfwd.
  unfold handleStreamResponse, consumeStream. by rewrite Hfwd.
Qed.


(** X4. When every chunk carries at most one tool-call fragment, all the
    fragments of the stream are merged into the one slot 0, whatever
    indexes the endpoint gave them: the accumulator holds a single entry,
    whose arguments are the arguments of all the fragments appended in the
    order of arrival and whose name is the first name that is not empty. *)
Theorem one_fragment_per_chunk_merges_all (onChunk : Sink) (cs : list Chunk)
    (st : StreamState) :
  consumeChunks Date_now onChunk cs stream_start = Returned st →
  Forall (fun c => length (chunk_fragments c) ≤ 1) cs →
  match concat (map chunk_fragments cs) with
  | [] => accumulatedToolCalls st = []
  | first :: later =>
      ∃ entry, accumulatedToolCalls st = [Some entry]
               ∧ fn_name (tc_function entry) = merged_name first later
               ∧ fn_arguments (tc_function entry) = merged_arguments first later
  end.
Proof.
  intros Hrun Hone.
  destruct (stream_slots Date_now _ _ _ Hrun) as (_ & Hslots).
  pose proof (accumulator_length Date_now _ _ _ Hrun) as Hlen.
  specialize (Hslots 0). rewrite (fragments_at_single cs Hone) in Hslots.
  assert (Hmax : max_list (map (fun c => length (chunk_fragments c)) cs) ≤ 1).
  { clear -Hone. induction Hone as [|c cs Hc _ IH]; simpl; lia. }
  destruct (concat (map chunk_fragments cs)) as [|first later].
  - by destruct (accumulatedToolCalls st).
  - destruct Hslots as (entry & Hat & _ & Hname & Hargs).
    exists entry. split; [|done].
    destruct (accumulatedToolCalls st) as [|slot [|slot' slots]]; simpl in *; [done | | lia].
    by injection Hat as ->.
Qed.

(** X5. Two entries of the accumulator whose first fragments came without
    an id never get the same generated id. *)
Theorem generated_ids_differ (onChunk : Sink) (cs : list Chunk) (st : StreamState)
    (i j : nat) (first_i first_j : DeltaToolCall) (later_i later_j : list DeltaToolCall) :
  consumeChunks Date_now onChunk cs stream_start = Returned st →
  i ≠ j →
  fragments_at i cs = first_i :: later_i →
  fragments_at j cs = first_j :: later_j →
  truthy (or_else (d_id first_i) "") = false →
  truthy (or_else (d_id first_j) "") = false →
  ∃ entry_i entry_j,
    accumulatedToolCalls st !! i = Some (Some entry_i)
    ∧ accumulatedToolCalls st !! j = Some (Some entry_j)
    ∧ tc_id entry_i ≠ tc_id entry_j.
Proof.
  intros Hrun Hij Hi Hj Hidi Hidj.
  destruct (stream_slots Date_now _ _ _ Hrun) as (_ & Hslots).
  pose proof (Hslots i) as Hsi. pose proof (Hslots j) as Hsj.
  rewrite Hi in Hsi. rewrite Hj in Hsj.
  destruct Hsi as (entry_i & Hati & (ki & Hki) & _).
  destruct Hsj as (entry_j & Hatj & (kj & Hkj) & _).
  exists entry_i, entry_j. split; [done|]. split; [done|].
  rewrite Hki, Hkj.
  rewrite (or_else_falsy _ (generated_id (Date_now ki) i) Hidi).
  rewrite (or_else_falsy _ (generated_id (Date_now kj) j) Hidj).
  intros Heq. by apply generated_id_no_clash in Heq.
Qed.

(** X6. The follow-up request sees the last three messages of the history
    and nothing older: a history of three or more messages can be given
    any past without changing the request.  The request has
    [min 3 (length history) + 3] messages and one more for every tool
    result. *)
Theorem followUp_sees_last_three {X} (this : @ChatHandler ToolDefinition)
    (userMessage : string) (older recent : list (Message X))
    (openAiToolCalls : list FunctionToolCall) (toolResults : list ToolCall) :
  3 ≤ length recent →
  followUpRequest JSON_stringify this userMessage (older ++ recent) openAiToolCalls toolResults
  = followUpRequest JSON_stringify this userMessage recent openAiToolCalls toolResults
  ∧ length (req_messages
              (followUpRequest JSON_stringify this userMessage (older ++ recent) openAiToolCalls toolResults))
    = 6 + length toolResults.
Proof.
  intros Hrecent.
  assert (Hslice : slice_last 3 (older ++ recent) = slice_last 3 recent).
  { unfold slice_last. rewrite length_app, drop_app.
    replace (length older + length recent - 3 - length older) with (length recent - 3) by lia.
    rewrite drop_ge by lia. done. }
  unfold followUpRequest, followUpMessages. rewrite Hslice. split; [done|].
  cbn [req_messages]. rewrite !length_app, length_map, length_imap.
  unfold slice_last. rewrite length_drop. simpl. lia.
Qed.

(** X7. The entries of a batch do not depend on the rest of the batch:
    the results of two lists of requests put one after the other are the
    results of the first followed by the results of the second. *)
Theorem executeToolCalls_app (first second : list FunctionToolCall) :
  ∃ results1 results2,
    executeToolCalls executeTool JSON_parse first = Returned results1
    ∧ executeToolCalls executeTool JSON_parse second = Returned results2
    ∧ executeToolCalls executeTool JSON_parse (first ++ second)
      = Returned (results1 ++ results2)
    ∧ map call_name (results1 ++ results2)
      = map (fun tc => fn_name (tc_function tc)) (first ++ second).
Proof.
  destruct (executeToolCalls_returns executeTool JSON_parse first) as (results1 & H1 & Hall1).
  destruct (executeToolCalls_returns executeTool JSON_parse second) as (results2 & H2 & Hall2).
  exists results1, results2. split; [done|]. split; [done|].
  assert (Hall : Forall2 (fun tc t => executeToolCall executeTool JSON_parse tc = Returned t)
                   (first ++ second) (results1 ++ results2)) by (by apply Forall2_app).
  split.
  - unfold executeToolCalls. apply Promise_all_returned.
    by apply Forall2_fmap_l.
  - clear -Hall. induction Hall as [|tc t tcs ts Ht _ IH]; [done|].
    simpl. rewrite IH. by apply executeToolCall_id in Ht as [_ ->].
Qed.

(** X8. A request without arguments text is executed on the empty object
    and [JSON.parse] is not consulted: its entry is the same under any
    parser. *)
Theorem empty_arguments_are_not_parsed (JSON_parse' : string -> Outcome JsValue)
    (tc : FunctionToolCall) :
  fn_arguments (tc_function tc) = "" →
  executeToolCall executeTool JSON_parse tc = executeToolCall executeTool JSON_parse' tc
  ∧ executeToolCall executeTool JSON_parse tc
    = Returned match executeTool (fn_name (tc_function tc)) (JObj []) with
               | Returned result =>
                   mkToolCall (tc_id tc) (fn_name (tc_function tc)) (JObj []) result
               | Threw e => failedToolCall tc e
               end.
Proof.
  intros Hempty. rewrite !executeToolCall_settles.
  unfold parsedArguments. rewrite Hempty. simpl. split; [done|].
  by destruct (executeTool (fn_name (tc_function tc)) (JObj [])).
Qed.

(** X9. When the follow-up call is rejected the turn is rejected with the
    same error, after every tool has been executed; in the streaming
    branch too the error is the one of the call, not the stream error. *)
Theorem followUp_failure_fails_turn {X} (this : @ChatHandler ToolDefinition)
    (message_ : string) (history : list (Message X)) (requests : list FunctionToolCall)
    (executed : list ToolCall) (e : Thrown) :
  executeToolCalls executeTool JSON_parse requests = Returned executed →
  create (client this) (followUpRequest JSON_stringify this message_ history requests executed) = Threw e →
  (∀ completion responseMessage,
      head (choices completion) ≫= message = Some responseMessage →
      rm_tool_calls responseMessage = Some requests →
      handleNonStreamResponse executeTool JSON_parse JSON_stringify this completion message_ history
      = Threw e)
  ∧ (∀ stream onChunk st,
      consumeStream Date_now onChunk stream = Returned st →
      array_entries (accumulatedToolCalls st) = requests →
      requests ≠ [] →
      handleStreamResponse executeTool JSON_parse JSON_stringify Date_now this stream message_ history onChunk
      = Threw e).
Proof.
  intros Hres Hcall. split.
  - intros completion responseMessage Hmessage Hcalls.
    unfold handleNonStreamResponse. rewrite Hmessage, Hcalls, Hres. simpl.
    rewrite tool_round. by rewrite Hcall.
  - intros stream onChunk st Hrun Hentries Hne.
    rewrite (handleStreamResponse_consumed _ _ _ _ _ _ _ _ _ _ Hrun).
    rewrite Hentries.
    destruct (accumulatedToolCalls st) as [|slot slots]; [by subst requests|].
    change (0 <? length (slot :: slots)) with true. cbv iota.
    rewrite Hres. simpl. rewrite tool_round. by rewrite Hcall.
Qed.

(** The follow-up call after [updateModel]. *)
Lemma generateToolResponse_updateModel {X} (this : @ChatHandler ToolDefinition)
    (newModel : string) (message_ : string) (history : list (Message X))
    (requests : list FunctionToolCall) (executed : list ToolCall) :
  generateToolResponse JSON_stringify (updateModel this newModel) message_ history requests executed
  = generateToolResponse JSON_stringify (mkChatHandler (with_model newModel (client this)) (model this))
      message_ history requests executed.
Proof. reflexivity. Qed.

(** X10. After [updateModel] a turn runs as if every request the client
    receives, the primary one and the follow-up one, named the new model;
    nothing else of the handler changes. *)
Theorem updateModel_retargets_every_request {X} (this : @ChatHandler ToolDefinition)
    (newModel : string) (message_ : string) (history : list (Message X))
    (onChunk : option Sink) :
  processMessage getToolDefinitions executeTool JSON_parse JSON_stringify Date_now
    (updateModel this newModel) message_ history onChunk
  = processMessage getToolDefinitions executeTool JSON_parse JSON_stringify Date_now
      (mkChatHandler (with_model newModel (client this)) (model this))
      message_ history onChunk
  ∧ client (updateModel this newModel) = client this
  ∧ ∀ messages toolDefinitions stream,
      req_model (primaryRequest (updateModel this newModel) messages toolDefinitions stream)
      = newModel.
Proof.
  split; [|done].
  unfold processMessage. destruct getToolDefinitions as [toolDefinitions|e]; [|done]. simpl.
  destruct onChunk as [sink|].
  - change (create_stream (with_model newModel (client this))
              (primaryRequest
                 (mkChatHandler (with_model newModel (client this)) (model this))
                 (buildConversationMessages message_ history) toolDefinitions true))
      with (create_stream (client this)
              (primaryRequest (updateModel this newModel)
                 (buildConversationMessages message_ history) toolDefinitions true)).
    destruct (create_stream (client this) _) as [stream|e]; [|done]. simpl.
    unfold handleStreamResponse.
    destruct (try_catch _ _) as [st|e]; [|done]. simpl.
    destruct (0 <? length (accumulatedToolCalls st)); [|done].
    destruct (executeToolCalls executeTool JSON_parse _) as [executed|e]; [|done]. simpl.
    by rewrite generateToolResponse_updateModel.
  - change (create (with_model newModel (client this))
              (primaryRequest
                 (mkChatHandler (with_model newModel (client this)) (model this))
                 (buildConversationMessages message_ history) toolDefinitions false))
      with (create (client this)
              (primaryRequest (updateModel this newModel)
                 (buildConversationMessages message_ history) toolDefinitions false)).
    destruct (create (client this) _) as [completion|e]; [|done]. simpl.
    unfold handleNonStreamResponse.
    destruct (head (choices completion) ≫= message) as [responseMessage|]; [|done].
    destruct (rm_tool_calls responseMessage) as [tool_calls|]; [|done].
    destruct (executeToolCalls executeTool JSON_parse tool_calls) as [executed|e]; [|done].
    simpl. by rewrite generateToolResponse_updateModel.
Qed.

Lemma consumeChunks_first_choice (onChunk : Sink) (cs : list Chunk) :
  ∀ st, consumeChunks Date_now onChunk (map first_choice_of_chunk cs) st
        = consumeChunks Date_now onChunk cs st.
Proof.
  induction cs as [|c cs IH]; intros st; [done|]. simpl.
  assert (processChunk Date_now onChunk (first_choice_of_chunk c) st
          = processChunk Date_now onChunk c st) as ->.
  { unfold processChunk, first_choice_of_chunk. simpl. by destruct (chunk_choices c). }
  destruct (processChunk Date_now onChunk c st); simpl; [apply IH | done].
Qed.

(** X11. Only the first choice of a completion and of every chunk is read:
    a turn gives the same outcome when all further choices are dropped. *)
Theorem only_the_first_choice_is_read {X} (this : @ChatHandler ToolDefinition)
    (message_ : string) (history : list (Message X)) :
  (∀ completion,
      handleNonStreamResponse executeTool JSON_parse JSON_stringify this
        (first_choice_of_completion completion) message_ history
      = handleNonStreamResponse executeTool JSON_parse JSON_stringify this completion message_ history)
  ∧ (∀ stream onChunk,
      handleStreamResponse executeTool JSON_parse JSON_stringify Date_now this
        (mkStream (map first_choice_of_chunk (chunks stream)) (fault stream))
        message_ history onChunk
      = handleStreamResponse executeTool JSON_parse JSON_stringify Date_now this stream message_ history
          onChunk).
Proof.
  split.
  - intros completion. unfold handleNonStreamResponse, first_choice_of_completion. simpl.
    by destruct (choices completion).
  - intros stream onChunk. unfold handleStreamResponse, consumeStream. simpl.
    by rewrite consumeChunks_first_choice.
Qed.

Lemma consumeChunks_without_choices (onChunk : Sink) (cs : list Chunk) (st : StreamState) :
  Forall (fun c => chunk_choices c = []) cs →
  consumeChunks Date_now onChunk cs st = Returned st.
Proof.
  induction 1 as [|c cs Hc _ IH]; [done|]. simpl.
  unfold processChunk. rewrite Hc. simpl. exact IH.
Qed.

(** X12. A response without choices does not fail the turn.  In blocking
    mode the content is "I apologize, but I encountered an issue
    processing your request."; in streaming mode, when no chunk has a
    choice and the stream ends, the content is the empty text and the
    callback is never called.  No tool is run and no follow-up call is
    made. *)
Theorem response_without_choices {X} (this : @ChatHandler ToolDefinition)
    (message_ : string) (history : list (Message X))
    (toolDefinitions : list ToolDefinition) :
  getToolDefinitions = Returned toolDefinitions →
  (∀ completion,
      create (client this)
        (primaryRequest this (buildConversationMessages message_ history) toolDefinitions false)
        = Returned completion →
      choices completion = [] →
      processMessage getToolDefinitions executeTool JSON_parse JSON_stringify Date_now
        this message_ history None
      = Returned (mkTurnResult
                    "I apologize, but I encountered an issue processing your request." None))
  ∧ (∀ stream onChunk,
      create_stream (client this)
        (primaryRequest this (buildConversationMessages message_ history) toolDefinitions true)
        = Returned stream →
      Forall (fun c => chunk_choices c = []) (chunks stream) →
      fault stream = None →
      processMessage getToolDefinitions executeTool JSON_parse JSON_stringify Date_now
        this message_ history (Some onChunk)
      = Returned (mkTurnResult "" None)
      ∧ forwarded_fragments (chunks stream) = []).
Proof.
  intros Htools. split.
  - intros completion Hcreate Hnone.
    unfold processMessage. rewrite Htools. simpl. rewrite Hcreate. simpl.
    unfold handleNonStreamResponse. by rewrite Hnone.
  - intros stream onChunk Hcreate Hnone Hfault. split.
    + unfold processMessage. rewrite Htools. simpl. rewrite Hcreate. simpl.
      unfold handleStreamResponse, consumeStream.
      rewrite (consumeChunks_without_choices onChunk _ _ Hnone). simpl.
      by rewrite Hfault.
    + clear -Hnone. unfold forwarded_fragments.
      induction Hnone as [|c cs Hc _ IH]; [done|]. simpl.
      unfold chunk_content, chunk_delta at 1. rewrite Hc. simpl. exact IH.
Qed.

(** What fails before the response is read reaches the caller as it
    is: a failure of the registry to list its tools, in either mode and
    before any call of the client, and a rejection of the primary call,
    which in streaming mode is not turned into the stream error. *)
Lemma early_failures_reach_the_caller {X} (this : @ChatHandler ToolDefinition)
    (message_ : string) (history : list (Message X)) (e : Thrown) :
  (getToolDefinitions = Threw e →
   ∀ (other : @ChatHandler ToolDefinition) onChunk,
     processMessage getToolDefinitions executeTool JSON_parse JSON_stringify Date_now
       other message_ history onChunk = Threw e)
  ∧ (∀ toolDefinitions onChunk,
       getToolDefinitions = Returned toolDefinitions →
       create_stream (client this)
         (primaryRequest this (buildConversationMessages message_ history) toolDefinitions true)
         = Threw e →
       processMessage getToolDefinitions executeTool JSON_parse JSON_stringify Date_now
         this message_ history (Some onChunk) = Threw e)
  ∧ (∀ toolDefinitions,
       getToolDefinitions = Returned toolDefinitions →
       create (client this)
         (primaryRequest this (buildConversationMessages message_ history) toolDefinitions false)
         = Threw e →
       processMessage getToolDefinitions executeTool JSON_parse JSON_stringify Date_now
         this message_ history None = Threw e).
Proof.
  split; [|split].
  - intros Htools other onChunk. unfold processMessage. by rewrite Htools.
  - intros toolDefinitions onChunk Htools Hcreate.
    unfold processMessage. rewrite Htools. simpl. by rewrite Hcreate.
  - intros toolDefinitions Htools Hcreate.
    unfold processMessage. rewrite Htools. simpl. by rewrite Hcreate.
Qed.

End Further.

(** * Properties of the chat page *)

Section Page.

Variable randomUUID : nat -> string.

Lemma show_reply_last (assistantMessageId text content : string) (r : HomePage.Role)
    (init : list HomePage.Message) :
  HomePage.show_reply assistantMessageId text
    (init ++ [HomePage.mkMessage assistantMessageId r content])
  = init ++ [HomePage.mkMessage assistantMessageId r text].
Proof.
  unfold HomePage.show_reply. rewrite last_snoc. simpl.
  rewrite String.eqb_refl, length_app. simpl.
  replace (length init + 1 - 1) with (length init) by lia.
  by rewrite take_app_length.
Qed.

(** The chunks of an exchange fill the last message, the reply, with the
    text they add up to. *)
Lemma stream_reply_last (assistantMessageId : string) (r : HomePage.Role)
    (init : list HomePage.Message) (chunks : list string) :
  ∀ streamingMessage,
    HomePage.stream_reply assistantMessageId chunks streamingMessage
      (init ++ [HomePage.mkMessage assistantMessageId r streamingMessage])
    = (streamingMessage +:+ text_of chunks,
       init ++ [HomePage.mkMessage assistantMessageId r (streamingMessage +:+ text_of chunks)]).
Proof.
  induction chunks as [|chunk chunks IH]; intros streamingMessage; simpl.
  - by rewrite append_empty_r.
  - rewrite show_reply_last, IH. by rewrite append_assoc.
Qed.

Lemma welcomeEffect_started (s : HomePage.State) :
  HomePage.interviewStage s ≠ HomePage.start → HomePage.welcomeEffect randomUUID s = s.
Proof. unfold HomePage.welcomeEffect. by destruct (HomePage.interviewStage s). Qed.

Lemma step_started (s : HomePage.State) (ev : HomePage.Event) :
  HomePage.interviewStage (HomePage.dispatch randomUUID s ev) ≠ HomePage.start →
  HomePage.step randomUUID s ev = HomePage.dispatch randomUUID s ev.
Proof.
  intros Hstage. unfold HomePage.step.
  destruct (HomePage.Stage_eqb _ _); [done | by apply welcomeEffect_started].
Qed.

(** An accepted submit. *)
Lemma handleSubmit_accepted (s : HomePage.State) (ex : HomePage.Exchange) :
  HomePage.blank (HomePage.input s) = false →
  HomePage.isLoading s = false →
  HomePage.interviewStage s = HomePage.in_progress →
  HomePage.handleSubmit randomUUID s ex
  = HomePage.mkState (HomePage.role s)
      (HomePage.messages s
       ++ [HomePage.mkMessage (randomUUID (HomePage.uuids s)) HomePage.user (HomePage.input s);
           HomePage.mkMessage (randomUUID (S (HomePage.uuids s))) HomePage.assistant
             (text_of (HomePage.delivered ex))])
      "" (negb (HomePage.fulfilled ex))
      (if HomePage.fulfilled ex && HomePage.is_farewell (text_of (HomePage.delivered ex))
       then HomePage.finished else HomePage.in_progress)
      (S (S (HomePage.uuids s))) (HomePage.outbox s ++ [HomePage.input s])
      (HomePage.sessions s).
Proof.
  intros Hblank Hloading Hstage. unfold HomePage.handleSubmit.
  rewrite Hblank, Hloading, Hstage. simpl.
  rewrite (stream_reply_last _ HomePage.assistant _ (HomePage.delivered ex) "").
  change ("" +:+ text_of (HomePage.delivered ex)) with (text_of (HomePage.delivered ex)).
  rewrite <- app_assoc. simpl.
  destruct (HomePage.fulfilled ex); simpl; [|done].
  by destruct (HomePage.is_farewell _).
Qed.

(** A role selection on the start page. *)
Lemma handleRoleSelect_accepted (s : HomePage.State) (selectedRole : HomePage.InterviewRole)
    (ex : HomePage.Exchange) :
  HomePage.interviewStage s = HomePage.start →
  HomePage.handleRoleSelect randomUUID s selectedRole ex
  = HomePage.mkState (Some selectedRole)
      (HomePage.messages s
       ++ [HomePage.mkMessage (randomUUID (HomePage.uuids s)) HomePage.user
             ("I've selected the " +:+ HomePage.role_label selectedRole +:+ " role.");
           HomePage.mkMessage (randomUUID (S (HomePage.uuids s))) HomePage.assistant
             (text_of (HomePage.delivered ex))])
      (HomePage.input s) (negb (HomePage.fulfilled ex))
      (if HomePage.fulfilled ex && HomePage.is_farewell (text_of (HomePage.delivered ex))
       then HomePage.finished else HomePage.in_progress)
      (S (S (HomePage.uuids s)))
      (HomePage.outbox s
       ++ ["I've selected the " +:+ HomePage.role_label selectedRole +:+ " role."])
      (HomePage.sessions s).
Proof.
  intros Hstage. unfold HomePage.handleRoleSelect. rewrite Hstage.
  cbv zeta.
  rewrite (cons_middle _ (HomePage.messages s) [_]), app_assoc.
  rewrite (stream_reply_last _ HomePage.assistant _ (HomePage.delivered ex) "").
  change ("" +:+ text_of (HomePage.delivered ex)) with (text_of (HomePage.delivered ex)).
  rewrite <- app_assoc. simpl.
  destruct (HomePage.fulfilled ex); simpl; [|done].
  by destruct (HomePage.is_farewell _).
Qed.

(** X13. A submit is ignored, and nothing is sent, when the input is blank,
    the page is loading or the interview is not in progress.  Otherwise
    the input is sent and cleared, and the conversation gets two more
    messages: the input, from the user, and the reply, whose text is what
    the chunks of the exchange add up to; the page stays loading exactly
    when the promise of the exchange is not fulfilled. *)
Theorem submit_sends_input_and_shows_reply (s : HomePage.State) (ex : HomePage.Exchange) :
  (HomePage.blank (HomePage.input s) = true
   ∨ HomePage.isLoading s = true
   ∨ HomePage.interviewStage s ≠ HomePage.in_progress →
   HomePage.step randomUUID s (HomePage.Submit ex) = s)
  ∧ (HomePage.blank (HomePage.input s) = false →
     HomePage.isLoading s = false →
     HomePage.interviewStage s = HomePage.in_progress →
     let s' := HomePage.step randomUUID s (HomePage.Submit ex) in
     HomePage.messages s'
     = HomePage.messages s
       ++ [HomePage.mkMessage (randomUUID (HomePage.uuids s)) HomePage.user (HomePage.input s);
           HomePage.mkMessage (randomUUID (S (HomePage.uuids s))) HomePage.assistant
             (text_of (HomePage.delivered ex))]
     ∧ HomePage.outbox s' = HomePage.outbox s ++ [HomePage.input s]
     ∧ HomePage.input s' = ""
     ∧ HomePage.isLoading s' = negb (HomePage.fulfilled ex)
     ∧ HomePage.role s' = HomePage.role s).
Proof.
  split.
  - intros Hguard.
    assert (HomePage.handleSubmit randomUUID s ex = s) as Hsame.
    { unfold HomePage.handleSubmit.
      destruct Hguard as [-> | [-> | Hstage]]; [done | by rewrite orb_true_r |].
      destruct (HomePage.interviewStage s); [| done |]; by rewrite orb_true_r. }
    unfold HomePage.step, HomePage.dispatch. rewrite Hsame.
    destruct (HomePage.Stage_eqb (HomePage.interviewStage s) HomePage.finished);
      by destruct (HomePage.interviewStage s).
  - intros Hblank Hloading Hstage. cbv zeta.
    rewrite step_started; unfold HomePage.dispatch; rewrite Hstage; simpl;
      rewrite (handleSubmit_accepted s ex Hblank Hloading Hstage); simpl.
    + done.
    + by destruct (HomePage.fulfilled ex && HomePage.is_farewell _).
Qed.

(** X14. A role can be selected on the start page only.  There the page
    sends "I've selected the <role> role.", shows it as a message of the
    user followed by the reply the chunks add up to, records the role and
    leaves the stage [start]; the input is not touched. *)
Theorem role_selection_starts_the_interview (s : HomePage.State)
    (selectedRole : HomePage.InterviewRole) (ex : HomePage.Exchange) :
  (HomePage.interviewStage s ≠ HomePage.start →
   HomePage.step randomUUID s (HomePage.SelectRole selectedRole ex) = s)
  ∧ (HomePage.interviewStage s = HomePage.start →
     let s' := HomePage.step randomUUID s (HomePage.SelectRole selectedRole ex) in
     let startMessage := "I've selected the " +:+ HomePage.role_label selectedRole +:+ " role." in
     HomePage.messages s'
     = HomePage.messages s
       ++ [HomePage.mkMessage (randomUUID (HomePage.uuids s)) HomePage.user startMessage;
           HomePage.mkMessage (randomUUID (S (HomePage.uuids s))) HomePage.assistant
             (text_of (HomePage.delivered ex))]
     ∧ HomePage.outbox s' = HomePage.outbox s ++ [startMessage]
     ∧ HomePage.role s' = Some selectedRole
     ∧ HomePage.interviewStage s' ≠ HomePage.start
     ∧ HomePage.input s' = HomePage.input s).
Proof.
  split.
  - intros Hstage. unfold HomePage.step, HomePage.dispatch.
    destruct (HomePage.interviewStage s) eqn:Hs; [congruence | |]; simpl; by rewrite Hs.
  - intros Hstage. cbv zeta.
    rewrite step_started; unfold HomePage.dispatch; rewrite Hstage; simpl;
      rewrite (handleRoleSelect_accepted s selectedRole ex Hstage); simpl.
    + split; [done|]. split; [done|]. split; [done|]. split; [|done].
      by destruct (HomePage.fulfilled ex && HomePage.is_farewell _).
    + by destruct (HomePage.fulfilled ex && HomePage.is_farewell _).
Qed.

(** X15. An accepted submit or role selection ends the interview exactly
    when the promise of the exchange is fulfilled and the lower case of
    the whole reply holds "thank you for your time"; otherwise the
    interview is in progress afterwards. *)
Theorem interview_finishes_on_farewell (s : HomePage.State) (ex : HomePage.Exchange) :
  let reply_ends := HomePage.fulfilled ex && HomePage.is_farewell (text_of (HomePage.delivered ex)) in
  (HomePage.blank (HomePage.input s) = false →
   HomePage.isLoading s = false →
   HomePage.interviewStage s = HomePage.in_progress →
   HomePage.interviewStage (HomePage.step randomUUID s (HomePage.Submit ex))
   = if reply_ends then HomePage.finished else HomePage.in_progress)
  ∧ (∀ selectedRole,
       HomePage.interviewStage s = HomePage.start →
       HomePage.interviewStage (HomePage.step randomUUID s (HomePage.SelectRole selectedRole ex))
       = if reply_ends then HomePage.finished else HomePage.in_progress).
Proof.
  cbv zeta. split.
  - intros Hblank Hloading Hstage.
    rewrite step_started; unfold HomePage.dispatch; rewrite Hstage; simpl;
      rewrite (handleSubmit_accepted s ex Hblank Hloading Hstage); simpl.
    + done.
    + by destruct (HomePage.fulfilled ex && HomePage.is_farewell _).
  - intros selectedRole Hstage.
    rewrite step_started; unfold HomePage.dispatch; rewrite Hstage; simpl;
      rewrite (handleRoleSelect_accepted s selectedRole ex Hstage); simpl.
    + done.
    + by destruct (HomePage.fulfilled ex && HomePage.is_farewell _).
Qed.

(** X16. The concluding messages of the two interview scripts, which the
    system prompt of the worker tells the model to say, do not end the
    interview: after a reply that is one of them the stage is still
    [in_progress]. *)
Theorem scripted_conclusion_does_not_finish (s : HomePage.State) (ex : HomePage.Exchange)
    (r : HomePage.InterviewRole) :
  HomePage.blank (HomePage.input s) = false →
  HomePage.isLoading s = false →
  HomePage.interviewStage s = HomePage.in_progress →
  text_of (HomePage.delivered ex) = HomePage.concluding_message r →
  HomePage.interviewStage (HomePage.step randomUUID s (HomePage.Submit ex))
  = HomePage.in_progress
  ∧ HomePage.includes systemPrompt (q (HomePage.concluding_message r)) = true.
Proof.
  intros Hblank Hloading Hstage Hreply. split.
  - rewrite step_started; unfold HomePage.dispatch; rewrite Hstage; simpl;
      rewrite (handleSubmit_accepted s ex Hblank Hloading Hstage); simpl;
      rewrite Hreply.
    + assert (HomePage.is_farewell (HomePage.concluding_message r) = false) as ->
        by (destruct r; vm_compute; reflexivity).
      by rewrite andb_false_r.
    + by destruct (HomePage.fulfilled ex && HomePage.is_farewell _).
  - destruct r; vm_compute; reflexivity.
Qed.

Lemma step_while_loading (s : HomePage.State) (ev : HomePage.Event) :
  HomePage.isLoading s = true →
  HomePage.interviewStage s = HomePage.in_progress →
  HomePage.step randomUUID s ev = s.
Proof.
  intros Hloading Hstage.
  assert (HomePage.dispatch randomUUID s ev = s) as Hsame.
  { destruct ev; unfold HomePage.dispatch, HomePage.handleSubmit;
      rewrite ?Hstage, ?Hloading; simpl; [done | done | by rewrite orb_true_r | done]. }
  unfold HomePage.step. rewrite Hsame, Hstage. done.
Qed.

(** X17. When the promise of an exchange is rejected the page stays
    loading for good: whatever events follow, nothing changes any more;
    the interview can neither go on nor be started anew. *)
Theorem rejected_exchange_freezes_the_page (s : HomePage.State) (ex : HomePage.Exchange)
    (events : list HomePage.Event) :
  HomePage.fulfilled ex = false →
  (HomePage.blank (HomePage.input s) = false →
   HomePage.isLoading s = false →
   HomePage.interviewStage s = HomePage.in_progress →
   HomePage.run randomUUID events (HomePage.step randomUUID s (HomePage.Submit ex))
   = HomePage.step randomUUID s (HomePage.Submit ex)
   ∧ HomePage.isLoading (HomePage.step randomUUID s (HomePage.Submit ex)) = true)
  ∧ (∀ selectedRole,
       HomePage.interviewStage s = HomePage.start →
       HomePage.run randomUUID events
         (HomePage.step randomUUID s (HomePage.SelectRole selectedRole ex))
       = HomePage.step randomUUID s (HomePage.SelectRole selectedRole ex)
       ∧ HomePage.isLoading (HomePage.step randomUUID s (HomePage.SelectRole selectedRole ex))
         = true).
Proof.
  intros Hrejected.
  assert (Hfrozen : ∀ s', HomePage.isLoading s' = true →
                          HomePage.interviewStage s' = HomePage.in_progress →
                          HomePage.run randomUUID events s' = s').
  { intros s' Hloading Hstage. unfold HomePage.run.
    induction events as [|ev events IH]; [done|]. simpl.
    by rewrite (step_while_loading s' ev Hloading Hstage). }
  split.
  - intros Hblank Hloading Hstage.
    assert (HomePage.step randomUUID s (HomePage.Submit ex)
            = HomePage.handleSubmit randomUUID s ex) as ->.
    { rewrite step_started; unfold HomePage.dispatch; rewrite Hstage; simpl; [done|].
      rewrite (handleSubmit_accepted s ex Hblank Hloading Hstage). simpl.
      by rewrite Hrejected. }
    rewrite (handleSubmit_accepted s ex Hblank Hloading Hstage), Hrejected. simpl.
    split; [by apply Hfrozen | done].
  - intros selectedRole Hstage.
    assert (HomePage.step randomUUID s (HomePage.SelectRole selectedRole ex)
            = HomePage.handleRoleSelect randomUUID s selectedRole ex) as ->.
    { rewrite step_started; unfold HomePage.dispatch; rewrite Hstage; simpl; [done|].
      rewrite (handleRoleSelect_accepted s selectedRole ex Hstage). simpl.
      by rewrite Hrejected. }
    rewrite (handleRoleSelect_accepted s selectedRole ex Hstage), Hrejected. simpl.
    split; [by apply Hfrozen | done].
Qed.

Lemma alternates_two_more (rs : list HomePage.Role) :
  HomePage.alternates rs = true →
  HomePage.alternates (rs ++ [HomePage.user; HomePage.assistant]) = true.
Proof.
  remember (length rs) as n eqn:Hn. revert rs Hn.
  induction n as [n IH] using lt_wf_ind. intros rs Hn Halt.
  destruct rs as [|[] [|[] rest]]; simpl in *; try done.
  apply (IH (length rest)); [lia | done | done].
Qed.

Lemma consistent_mounted : HomePage.consistent (HomePage.mounted randomUUID).
Proof.
  unfold HomePage.consistent, HomePage.mounted. simpl.
  split; [done|]. split; [by eexists|]. split; [done|]. split; [by eexists _, _ | done].
Qed.

Lemma consistent_step (s : HomePage.State) (ev : HomePage.Event) :
  HomePage.consistent s → HomePage.consistent (HomePage.step randomUUID s ev).
Proof.
  intros Hs.
  pose proof Hs as (Hrole & Hstart & Hfinished & (id0 & rest & Hmessages) & Halt).
  assert (Hsame : HomePage.dispatch randomUUID s ev = s →
                  HomePage.consistent (HomePage.step randomUUID s ev)).
  { intros Heq. unfold HomePage.step. rewrite Heq.
    by destruct (HomePage.interviewStage s). }
  destruct ev as [selectedRole ex | text | ex |].
  - destruct (HomePage.interviewStage s) eqn:Hstage.
    + rewrite step_started; unfold HomePage.dispatch; rewrite Hstage; simpl;
        rewrite (handleRoleSelect_accepted s selectedRole ex Hstage); simpl;
        [|by destruct (HomePage.fulfilled ex && HomePage.is_farewell _)].
      unfold HomePage.consistent. simpl.
      split; [by destruct (HomePage.fulfilled ex && HomePage.is_farewell _)|].
      split; [by destruct (HomePage.fulfilled ex && HomePage.is_farewell _)|].
      split; [by destruct (HomePage.fulfilled ex)|].
      split; [rewrite Hmessages; by eexists _, _|].
      rewrite map_app. by apply alternates_two_more.
    + apply Hsame. unfold HomePage.dispatch. by rewrite Hstage.
    + apply Hsame. unfold HomePage.dispatch. by rewrite Hstage.
  - destruct (negb (HomePage.isLoading s)
              && HomePage.Stage_eqb (HomePage.interviewStage s) HomePage.in_progress) eqn:Hok.
    + apply andb_true_iff in Hok as [Hloading Hstage].
      destruct (HomePage.interviewStage s) eqn:Hs'; [done | | done].
      unfold HomePage.step, HomePage.dispatch. rewrite Hs', Hloading. simpl.
      unfold HomePage.consistent. simpl.
      split; [exact Hrole|]. split; [done|]. split; [done|]. by eauto.
    + apply Hsame. unfold HomePage.dispatch. by rewrite Hok.
  - destruct (HomePage.blank (HomePage.input s)
              || HomePage.isLoading s
              || negb (HomePage.Stage_eqb (HomePage.interviewStage s) HomePage.in_progress))
      eqn:Hguard.
    + apply Hsame. unfold HomePage.dispatch, HomePage.handleSubmit. rewrite Hguard.
      destruct (HomePage.Stage_eqb (HomePage.interviewStage s) HomePage.finished);
        reflexivity.
    + apply orb_false_iff in Hguard as [Hguard Hstage].
      apply orb_false_iff in Hguard as [Hblank Hloading].
      destruct (HomePage.interviewStage s) eqn:Hs'; [done | | done].
      rewrite step_started; unfold HomePage.dispatch; rewrite Hs'; simpl;
        rewrite (handleSubmit_accepted s ex Hblank Hloading Hs'); simpl;
        [|by destruct (HomePage.fulfilled ex && HomePage.is_farewell _)].
      unfold HomePage.consistent. simpl.
      split; [rewrite Hrole; by destruct (HomePage.fulfilled ex && HomePage.is_farewell _)|].
      split; [by destruct (HomePage.fulfilled ex && HomePage.is_farewell _)|].
      split; [by destruct (HomePage.fulfilled ex)|].
      split; [rewrite Hmessages; by eexists _, _|].
      rewrite map_app. by apply alternates_two_more.
  - destruct (HomePage.interviewStage s) eqn:Hstage.
    + apply Hsame. unfold HomePage.dispatch. by rewrite Hstage.
    + apply Hsame. unfold HomePage.dispatch. by rewrite Hstage.
    + unfold HomePage.step, HomePage.dispatch. rewrite Hstage. simpl.
      unfold HomePage.consistent. simpl.
      split; [done|]. split; [by eexists|]. split; [done|]. split; [by eexists _, _ | done].
Qed.

(** X18. Whatever the events since the page was mounted: no role is
    selected exactly in the stage [start]; in that stage the conversation
    is the welcome message alone, the input is empty and the page is not
    loading; a finished interview is not loading; the conversation always
    begins with the welcome message and alternates between the assistant
    and the user, ending with the assistant. *)
Theorem page_stays_consistent (events : list HomePage.Event) :
  let s := HomePage.run randomUUID events (HomePage.mounted randomUUID) in
  (HomePage.role s = None ↔ HomePage.interviewStage s = HomePage.start)
  ∧ (HomePage.interviewStage s = HomePage.start →
     ∃ id, HomePage.messages s = [HomePage.mkMessage id HomePage.assistant HomePage.welcome]
           ∧ HomePage.input s = "" ∧ HomePage.isLoading s = false)
  ∧ (HomePage.interviewStage s = HomePage.finished → HomePage.isLoading s = false)
  ∧ (∃ id rest,
       HomePage.messages s = HomePage.mkMessage id HomePage.assistant HomePage.welcome :: rest)
  ∧ HomePage.alternates (map HomePage.msg_role (HomePage.messages s)) = true.
Proof.
  cbv zeta. change (HomePage.consistent
                      (HomePage.run randomUUID events (HomePage.mounted randomUUID))).
  unfold HomePage.run. generalize (HomePage.mounted randomUUID) consistent_mounted.
  induction events as [|ev events IH]; intros s Hs; [done|].
  simpl. apply IH. by apply consistent_step.
Qed.

End Page.

(** * Runs of the further properties *)

Lemma streamed_content_is_what_was_forwarded_run :
  ∃ st,
    consumeStream Script.Date_now Script.quiet (mkStream Script.question1_chunks None)
      = Returned st
    ∧ forwarded st
      = ["Great, let's begin. ";
         "Can you describe your previous experience in an office environment "
         +:+ "and what your key responsibilities were?"]
    ∧ handleStreamResponse Script.executeTool Json.parse Json.stringify Script.Date_now Cases.idle
        (mkStream Script.question1_chunks None) "Hello" Script.greeting Script.quiet
      = Returned (mkTurnResult (text_of (forwarded st)) None).
Proof.
  destruct (streamed_content_is_what_was_forwarded Script.executeTool Json.parse Json.stringify
              Script.Date_now Cases.idle (mkStream Script.question1_chunks None)
              "Hello" Script.greeting Script.quiet _ eq_refl)
    as (st & Hrun & Hforwarded & _ & Hresult).
  exists st. split; [exact Hrun|]. split; [exact Hforwarded|].
  rewrite <- Hresult; [reflexivity | repeat constructor].
Defined.

Lemma callback_error_fails_turn_run :
  handleStreamResponse Script.executeTool Json.parse Json.stringify Script.Date_now Cases.idle
    (mkStream Script.question1_chunks None) "Hello" Script.greeting Script.fragile
  = Threw (ThrownError "Stream processing failed").
Proof.
  exact (callback_error_fails_turn Script.executeTool Json.parse Json.stringify Script.Date_now Cases.idle
           (mkStream Script.question1_chunks None) "Hello" Script.greeting Script.fragile
           (ThrownError "socket closed") eq_refl).
Defined.


Lemma one_fragment_per_chunk_merges_all_run :
  ∃ st entry,
    consumeChunks Script.Date_now Script.quiet Cases.parallel_chunks stream_start = Returned st
    ∧ accumulatedToolCalls st = [Some entry]
    ∧ fn_name (tc_function entry) = "get_weather"
    ∧ fn_arguments (tc_function entry)
      = "{" +:+ q "city" +:+ ":" +:+ q "Paris" +:+ "}"
        +:+ "{" +:+ q "tz" +:+ ":" +:+ q "CET" +:+ "}".
Proof.
  eexists.
  destruct (one_fragment_per_chunk_merges_all Script.Date_now Script.quiet
              Cases.parallel_chunks _ eq_refl ltac:(repeat constructor))
    as (entry & Hacc & Hname & Hargs).
  exists entry. split; [reflexivity|]. split; [exact Hacc|].
  split; [exact Hname | exact Hargs].
Defined.

Lemma generated_ids_differ_run :
  ∃ st entry0 entry1,
    consumeChunks Script.Date_now Script.quiet Cases.anonymous_chunks stream_start = Returned st
    ∧ accumulatedToolCalls st !! 0 = Some (Some entry0)
    ∧ accumulatedToolCalls st !! 1 = Some (Some entry1)
    ∧ tc_id entry0 ≠ tc_id entry1.
Proof.
  eexists.
  destruct (generated_ids_differ Script.Date_now Script.quiet Cases.anonymous_chunks _ 0 1
              _ _ _ _ eq_refl ltac:(discriminate) eq_refl eq_refl eq_refl eq_refl)
    as (entry0 & entry1 & H0 & H1 & Hne).
  exists entry0, entry1. split; [reflexivity|]. split; [exact H0|]. split; [exact H1 | exact Hne].
Defined.

Lemma followUp_sees_last_three_run :
  followUpRequest Json.stringify Cases.idle "I prioritize by deadline." Cases.long_history
    [Script.echo_request] []
  = followUpRequest Json.stringify Cases.idle "I prioritize by deadline." (drop 2 Cases.long_history)
      [Script.echo_request] []
  ∧ length (req_messages
              (followUpRequest Json.stringify Cases.idle "I prioritize by deadline." Cases.long_history
                 [Script.echo_request] []))
    = 6.
Proof.
  exact (followUp_sees_last_three Json.stringify Cases.idle "I prioritize by deadline."
           (take 2 Cases.long_history) (drop 2 Cases.long_history)
           [Script.echo_request] [] ltac:(simpl; lia)).
Defined.

Lemma empty_arguments_are_not_parsed_run :
  executeToolCall Script.executeTool Json.parse Cases.no_arguments_request
  = executeToolCall Script.executeTool Cases.refusing_parser Cases.no_arguments_request
  ∧ executeToolCall Script.executeTool Json.parse Cases.no_arguments_request
    = Returned (mkToolCall "call_plain" "echo" (JObj []) (JObj [])).
Proof.
  exact (empty_arguments_are_not_parsed Script.executeTool Json.parse Cases.refusing_parser
           Cases.no_arguments_request eq_refl).
Defined.

Lemma followUp_failure_fails_turn_run :
  handleNonStreamResponse Script.executeTool Json.parse Json.stringify Cases.idle
    (Script.reply None (Some [Script.echo_request])) "Echo 1" Script.greeting
  = Threw (ThrownError "unused")
  ∧ handleStreamResponse Script.executeTool Json.parse Json.stringify Script.Date_now Cases.idle
      (mkStream Script.lookup_chunks None) "Look x up" Script.greeting Script.quiet
    = Threw (ThrownError "unused").
Proof.
  split.
  - destruct (followUp_failure_fails_turn Script.executeTool Json.parse Json.stringify Script.Date_now
                Cases.idle "Echo 1" Script.greeting [Script.echo_request] _
                (ThrownError "unused") eq_refl eq_refl) as [Hblocking _].
    exact (Hblocking (Script.reply None (Some [Script.echo_request])) _ eq_refl eq_refl).
  - destruct (followUp_failure_fails_turn Script.executeTool Json.parse Json.stringify Script.Date_now
                Cases.idle "Look x up" Script.greeting
                [mkFunctionToolCall "call_lookup"
                   (mkFunctionCall "lookup" ("{" +:+ q "q" +:+ ":" +:+ q "x" +:+ "}"))]
                _ (ThrownError "unused") eq_refl eq_refl) as [_ Hstreaming].
    exact (Hstreaming (mkStream Script.lookup_chunks None) Script.quiet _ eq_refl eq_refl
             ltac:(discriminate)).
Defined.

Lemma response_without_choices_run :
  Script.run
    (Script.handler (Returned (mkChatCompletion [])) (Returned (mkStream [mkChunk []] None))
       (Threw (ThrownError "unused")))
    "Hello" Script.greeting None
  = Returned (mkTurnResult "I apologize, but I encountered an issue processing your request."
                None)
  ∧ Script.run
      (Script.handler (Returned (mkChatCompletion [])) (Returned (mkStream [mkChunk []] None))
         (Threw (ThrownError "unused")))
      "Hello" Script.greeting (Some Script.fragile)
    = Returned (mkTurnResult "" None).
Proof.
  destruct (response_without_choices Script.getToolDefinitions Script.executeTool Json.parse Json.stringify
              Script.Date_now
              (Script.handler (Returned (mkChatCompletion []))
                 (Returned (mkStream [mkChunk []] None)) (Threw (ThrownError "unused")))
              "Hello" Script.greeting ["echo"; "lookup"; "crash"] eq_refl)
    as [Hblocking Hstreaming].
  split.
  - exact (Hblocking (mkChatCompletion []) eq_refl eq_refl).
  - exact (proj1 (Hstreaming (mkStream [mkChunk []] None) Script.fragile eq_refl
                    ltac:(repeat constructor) eq_refl)).
Defined.

Lemma submit_sends_input_and_shows_reply_run :
  HomePage.messages
    (HomePage.step Cases.randomUUID Cases.answering
       (HomePage.Submit (HomePage.mkExchange ["How do you "; "prioritize?"] true)))
  = HomePage.messages Cases.answering
    ++ [HomePage.mkMessage "id-3" HomePage.user "I worked at a bank.";
        HomePage.mkMessage "id-4" HomePage.assistant "How do you prioritize?"]
  ∧ HomePage.step Cases.randomUUID (HomePage.mounted Cases.randomUUID)
      (HomePage.Submit (HomePage.mkExchange ["How do you "; "prioritize?"] true))
    = HomePage.mounted Cases.randomUUID.
Proof.
  split.
  - destruct (submit_sends_input_and_shows_reply Cases.randomUUID Cases.answering
                (HomePage.mkExchange ["How do you "; "prioritize?"] true)) as [_ Heffect].
    exact (proj1 (Heffect eq_refl eq_refl eq_refl)).
  - destruct (submit_sends_input_and_shows_reply Cases.randomUUID
                (HomePage.mounted Cases.randomUUID)
                (HomePage.mkExchange ["How do you "; "prioritize?"] true)) as [Hignored _].
    exact (Hignored (or_introl eq_refl)).
Defined.

Lemma role_selection_starts_the_interview_run :
  HomePage.messages
    (HomePage.step Cases.randomUUID (HomePage.mounted Cases.randomUUID)
       (HomePage.SelectRole HomePage.BeautyHost (HomePage.mkExchange ["Excellent."] true)))
  = HomePage.messages (HomePage.mounted Cases.randomUUID)
    ++ [HomePage.mkMessage "id-1" HomePage.user "I've selected the Beauty Host role.";
        HomePage.mkMessage "id-2" HomePage.assistant "Excellent."]
  ∧ HomePage.step Cases.randomUUID Cases.answering
      (HomePage.SelectRole HomePage.BeautyHost (HomePage.mkExchange ["Excellent."] true))
    = Cases.answering.
Proof.
  split.
  - destruct (role_selection_starts_the_interview Cases.randomUUID
                (HomePage.mounted Cases.randomUUID) HomePage.BeautyHost
                (HomePage.mkExchange ["Excellent."] true)) as [_ Heffect].
    exact (proj1 (Heffect eq_refl)).
  - destruct (role_selection_starts_the_interview Cases.randomUUID Cases.answering
                HomePage.BeautyHost (HomePage.mkExchange ["Excellent."] true)) as [Hignored _].
    exact (Hignored ltac:(discriminate)).
Defined.

Lemma interview_finishes_on_farewell_run :
  HomePage.interviewStage
    (HomePage.step Cases.randomUUID Cases.answering
       (HomePage.Submit (HomePage.mkExchange ["Thank you for "; "your time."] true)))
  = HomePage.finished.
Proof.
  destruct (interview_finishes_on_farewell Cases.randomUUID Cases.answering
              (HomePage.mkExchange ["Thank you for "; "your time."] true)) as [Hsubmit _].
  exact (Hsubmit eq_refl eq_refl eq_refl).
Defined.

Lemma scripted_conclusion_does_not_finish_run :
  HomePage.interviewStage
    (HomePage.step Cases.randomUUID Cases.answering
       (HomePage.Submit
          (HomePage.mkExchange [HomePage.concluding_message HomePage.OfficeStaff] true)))
  = HomePage.in_progress.
Proof.
  exact (proj1 (scripted_conclusion_does_not_finish Cases.randomUUID Cases.answering
                  (HomePage.mkExchange [HomePage.concluding_message HomePage.OfficeStaff] true)
                  HomePage.OfficeStaff eq_refl eq_refl eq_refl eq_refl)).
Defined.

Lemma rejected_exchange_freezes_the_page_run :
  HomePage.run Cases.randomUUID
    [HomePage.Typing "Hello?"; HomePage.Submit (HomePage.mkExchange ["Hi"] true);
     HomePage.NewInterview; HomePage.SelectRole HomePage.OfficeStaff (HomePage.mkExchange [] true)]
    (HomePage.step Cases.randomUUID Cases.answering
       (HomePage.Submit (HomePage.mkExchange ["How do"] false)))
  = HomePage.step Cases.randomUUID Cases.answering
      (HomePage.Submit (HomePage.mkExchange ["How do"] false)).
Proof.
  destruct (rejected_exchange_freezes_the_page Cases.randomUUID Cases.answering
              (HomePage.mkExchange ["How do"] false)
              [HomePage.Typing "Hello?"; HomePage.Submit (HomePage.mkExchange ["Hi"] true);
               HomePage.NewInterview;
               HomePage.SelectRole HomePage.OfficeStaff (HomePage.mkExchange [] true)]
              eq_refl) as [Hsubmit _].
  exact (proj1 (Hsubmit eq_refl eq_refl eq_refl)).
Defined.

Lemma page_stays_consistent_run :
  ∃ id, HomePage.messages
          (HomePage.run Cases.randomUUID
             [HomePage.SelectRole HomePage.OfficeStaff
                (HomePage.mkExchange ["Thank you for your time."] true);
              HomePage.NewInterview]
             (HomePage.mounted Cases.randomUUID))
        = [HomePage.mkMessage id HomePage.assistant HomePage.welcome].
Proof.
  destruct (page_stays_consistent Cases.randomUUID
              [HomePage.SelectRole HomePage.OfficeStaff
                 (HomePage.mkExchange ["Thank you for your time."] true);
               HomePage.NewInterview]) as (_ & Hstart & _).
  destruct (Hstart eq_refl) as (id & Hmessages & _).
  exists id. exact Hmessages.
Defined.
